(** * tarshim: notebook figure handler and table helpers

    A shallow embedding of [src/notebook_image_handling.py] (the class
    [FigureDisplay]) and of [src/tarshim.py] (residual plots and
    [html_from_dataframe]), with the properties of their specification.

    Python objects are modelled as records, [None]-able arguments as
    [option], exceptions as a sum in the result of every call, and the
    libraries the code calls (os, shutil, matplotlib, IPython, pandas) as an
    interface [Env] whose operations are state transformers on an abstract
    world.  A small POSIX file system model [Sim] instantiates the interface
    so that every definition can be run on concrete inputs. *)

From Stdlib Require Import ZArith List String Ascii Bool Lia.
From stdpp Require Import base option list gmap strings.

Local Open Scope string_scope.

(** ** Python exceptions and results *)

Module Py.

(** The exception classes that occur in the modelled code paths.  The first
    six are [OSError] and subclasses of it. *)
Inductive exn : Set :=
| OSError
| FileNotFoundError
| FileExistsError
| PermissionError
| NotADirectoryError
| IsADirectoryError
| ValueError
| TypeError
| IndexError
| AttributeError
| AssertionError
| RuntimeError.

(** [isinstance(e, OSError)], the test made by [except OSError]. *)
Definition is_OSError (e : exn) : bool :=
  match e with
  | OSError | FileNotFoundError | FileExistsError
  | PermissionError | NotADirectoryError | IsADirectoryError => true
  | _ => false
  end.

#[global] Instance exn_eq_dec : EqDecision exn.
Proof. solve_decision. Defined.

(** The outcome of a call: a value or a raised exception. *)
Inductive Res (A : Type) : Type :=
| Ok (a : A)
| Raise (e : exn).
Arguments Ok {A} a.
Arguments Raise {A} e.

(** Effectful code: a state transformer whose state survives an exception,
    as the side effects of a Python call do. *)
Definition M (S A : Type) : Type := S -> Res A * S.

Definition ret {S A} (a : A) : M S A := fun s => (Ok a, s).

Definition bind {S A B} (m : M S A) (k : A -> M S B) : M S B :=
  fun s => match m s with
           | (Ok a, s') => k a s'
           | (Raise e, s') => (Raise e, s')
           end.

Definition raise {S A} (e : exn) : M S A := fun s => (Raise e, s).

Definition gets {S A} (f : S -> A) : M S A := fun s => (Ok (f s), s).

Definition modify {S} (f : S -> S) : M S unit := fun s => (Ok tt, f s).

(** [try: m except OSError: pass] *)
Definition try_except_OSError_pass {S} (m : M S unit) : M S unit :=
  fun s => match m s with
           | (Ok tt, s') => (Ok tt, s')
           | (Raise e, s') => if is_OSError e then (Ok tt, s') else (Raise e, s')
           end.

(** Values of keyword arguments. *)
Inductive value : Set :=
| VStr (s : string)
| VInt (z : Z)
| VBool (b : bool).

#[global] Instance value_eq_dec : EqDecision value.
Proof. solve_decision. Defined.

End Py.
Import Py.

(** The monad is registered with stdpp's classes, which gives the notations
    [x ← m; k] and [m ;; k]. *)
#[global] Instance M_ret {S} : MRet (M S) := fun A => @ret S A.
#[global] Instance M_bind {S} : MBind (M S) := fun A B k m => @bind S A B m k.

(** ** Strings: the pieces of [str] the code relies on *)

Module Str.

Definition startswith_char (c : ascii) (s : string) : bool :=
  match s with
  | String c' _ => Ascii.eqb c' c
  | EmptyString => false
  end.

Fixpoint endswith_char (c : ascii) (s : string) : bool :=
  match s with
  | EmptyString => false
  | String c' EmptyString => Ascii.eqb c' c
  | String _ s' => endswith_char c s'
  end.

(** [s.split(sep)] for a one-character separator: never empty, and the
    empty string splits into one empty piece. *)
Fixpoint split (sep : ascii) (s : string) : list string :=
  match s with
  | EmptyString => [EmptyString]
  | String c s' =>
      if Ascii.eqb c sep then EmptyString :: split sep s'
      else match split sep s' with
           | [] => [String c EmptyString]
           | p :: ps => String c p :: ps
           end
  end.

(** [sep.join(parts)] *)
Fixpoint join (sep : string) (parts : list string) : string :=
  match parts with
  | [] => EmptyString
  | [p] => p
  | p :: ps => p ++ sep ++ join sep ps
  end.

(** [c * n] *)
Fixpoint replicate_char (n : nat) (c : ascii) : string :=
  match n with
  | O => EmptyString
  | S n' => String c (replicate_char n' c)
  end.

End Str.

(** ** [posixpath]: [os.path.join], [normpath] and [abspath]

    [os.path] is taken to be [posixpath], with ["/"] as the separator. *)

Module posixpath.

Definition sep : ascii := "/"%char.

Definition isabs (p : string) : bool := Str.startswith_char sep p.

(** [os.path.join(a, b)] *)
Definition join (a b : string) : string :=
  if Str.startswith_char sep b then b
  else if (String.eqb a "" || Str.endswith_char sep a)%bool then a ++ b
  else a ++ "/" ++ b.

(** The loop of [normpath] over the components; [new_comps] is kept
    reversed, its head is the last component appended. *)
Fixpoint normpath_loop (initial_slashes : nat) (comps : list string)
    (new_comps : list string) : list string :=
  match comps with
  | [] => rev new_comps
  | comp :: rest =>
      if (String.eqb comp "" || String.eqb comp ".")%bool then
        normpath_loop initial_slashes rest new_comps
      else if (negb (String.eqb comp "..")
               || (Nat.eqb initial_slashes 0 && match new_comps with [] => true | _ => false end)
               || match new_comps with last :: _ => String.eqb last ".." | [] => false end)%bool
      then normpath_loop initial_slashes rest (comp :: new_comps)
      else match new_comps with
           | _ :: popped => normpath_loop initial_slashes rest popped
           | [] => normpath_loop initial_slashes rest new_comps
           end
  end.

(** One or two leading slashes are kept, three or more count as one. *)
Definition initial_slashes (p : string) : nat :=
  match p with
  | String "/" (String "/" (String "/" _)) => 1
  | String "/" (String "/" _) => 2
  | String "/" _ => 1
  | _ => 0
  end.

Definition normpath (p : string) : string :=
  if String.eqb p "" then "."
  else
    let n := initial_slashes p in
    let comps := normpath_loop n (Str.split sep p) [] in
    let path := Str.replicate_char n sep ++ Str.join "/" comps in
    if String.eqb path "" then "." else path.

(** [abspath(p)] given the result of [os.getcwd()] *)
Definition abspath_from (cwd p : string) : string :=
  normpath (if isabs p then p else join cwd p).

End posixpath.

(** ** The conversion ["%03d" % n] *)

Module Fmt.

Definition digit_char (d : N) : ascii := ascii_of_N (48 + d).

(** Decimal digits, most significant first; [fuel] bounds the number of
    digits and is chosen large enough in [str_N]. *)
Fixpoint digits_go (fuel : nat) (n : N) (acc : string) : string :=
  match fuel with
  | O => acc
  | S fuel' =>
      let acc' := String (digit_char (n mod 10)) acc in
      if (n <? 10)%N then acc' else digits_go fuel' (n / 10) acc'
  end.

(** [str(n)] for [n >= 0] *)
Definition str_N (n : N) : string :=
  digits_go (S (N.to_nat (N.log2 n))) n "".

(** Left padding with zeros up to [width] characters; longer strings are
    left as they are. *)
Definition zero_pad (width : nat) (s : string) : string :=
  Str.replicate_char (width - String.length s) "0" ++ s.

(** ["%0<width>d" % n]: the sign counts in the width. *)
Definition percent_0d (width : nat) (n : Z) : string :=
  match n with
  | Zneg p => String "-" (zero_pad (width - 1) (str_N (Npos p)))
  | _ => zero_pad width (str_N (Z.to_N n))
  end.

(** Reading a decimal numeral back, digit by digit. *)
Definition digit_val (c : ascii) : N := (N_of_ascii c - 48)%N.

Fixpoint parse_go (a : N) (s : string) : N :=
  match s with
  | EmptyString => a
  | String c s' => parse_go (a * 10 + digit_val c) s'
  end.

Definition parse (s : string) : N := parse_go 0 s.

End Fmt.

(** ** The libraries the code calls *)

(** Operations of the operating system, matplotlib and IPython that
    [FigureDisplay] calls.  Each is a state transformer on the world and may
    raise. *)
Class Env : Type := {
  World : Type;
  (** a reference to a [matplotlib.figure.Figure] *)
  Figure : Type;
  Color : Type;
  (** an [IPython.display.Image] *)
  ImageObj : Type;
  (** what [IPython.display.display] returns *)
  Shown : Type;
  os_getcwd : M World string;
  shutil_rmtree : string -> M World unit;
  os_makedirs : string -> M World unit;
  (** [fig.suptitle(title, **kwargs)] *)
  fig_suptitle : Figure -> string -> gmap string value -> M World unit;
  fig_get_facecolor : Figure -> M World Color;
  (** [fig.savefig(fname, bbox_inches=b, facecolor=c)] *)
  fig_savefig : Figure -> string -> string -> Color -> M World unit;
  plt_close : Figure -> M World unit;
  plt_gcf : M World Figure;
  IPython_Image : string -> M World ImageObj;
  IPython_display : ImageObj -> M World Shown;
}.

(** The same libraries with another [fig.suptitle]. *)
Definition with_suptitle (env : Env)
    (f : Figure -> string -> gmap string value -> M World unit) : Env :=
  {| World := World;
     Figure := Figure;
     Color := Color;
     ImageObj := ImageObj;
     Shown := Shown;
     os_getcwd := os_getcwd;
     shutil_rmtree := shutil_rmtree;
     os_makedirs := os_makedirs;
     fig_suptitle := f;
     fig_get_facecolor := fig_get_facecolor;
     fig_savefig := fig_savefig;
     plt_close := plt_close;
     plt_gcf := plt_gcf;
     IPython_Image := IPython_Image;
     IPython_display := IPython_display |}.

(** [os.path.abspath]: reads the working directory only for a relative
    path. *)
Definition os_path_abspath `{Env} (p : string) : M World string :=
  if posixpath.isabs p then mret (posixpath.normpath p)
  else cwd ← os_getcwd; mret (posixpath.normpath (posixpath.join cwd p)).

(** ** [class FigureDisplay] *)

Record FigureDisplay : Type := {
  report_name : string;
  show_title : bool;
  current_number : Z;
  suptitle_kwargs : gmap string value;
  dir_name : string;
}.

(** [dict(ha="left", ma="left", x=0, va='bottom')] *)
Definition default_suptitle_kwargs : gmap string value :=
  <["ha" := VStr "left"]> (<["ma" := VStr "left"]> (<["x" := VInt 0]>
    (<["va" := VStr "bottom"]> ∅))).

(** [d.update(other)]: the keys of [other] win. *)
Definition dict_update {V} (d other : gmap string V) : gmap string V :=
  other ∪ d.

Definition set_current_number (n : Z) (self : FigureDisplay) : FigureDisplay :=
  {| report_name := report_name self;
     show_title := show_title self;
     current_number := n;
     suptitle_kwargs := suptitle_kwargs self;
     dir_name := dir_name self |}.

(** The state a method runs in: the object and the world. *)
Record State (W : Type) : Type := {
  self : FigureDisplay;
  world : W;
}.
Arguments self {W} _.
Arguments world {W} _.
Arguments Build_State {W} _ _.

Section FigureDisplay.
Context `{env : Env}.

(** A library call made from a method: it changes the world only. *)
Definition ext {A} (m : M World A) : M (State World) A :=
  fun st => match m (world st) with
            | (r, w') => (r, {| self := self st; world := w' |})
            end.

(** [FigureDisplay.__init__]: the attributes are set, the directory is
    removed and made again, and the object is the result. *)
Definition __init__ (report_name : string) (show_title : bool)
    (parent_directory : string) (suptitle_kwargs : gmap string value)
    : M World FigureDisplay :=
  let self_suptitle_kwargs := dict_update default_suptitle_kwargs suptitle_kwargs in
  parent_directory ← os_path_abspath parent_directory;
  let self_dir_name := posixpath.join parent_directory report_name in
  try_except_OSError_pass (shutil_rmtree self_dir_name);;
  os_makedirs self_dir_name;;
  mret {| report_name := report_name;
          show_title := show_title;
          current_number := 1;
          suptitle_kwargs := self_suptitle_kwargs;
          dir_name := self_dir_name |}.

(** ["figure_%03d.png" % n] *)
Definition figure_basename (n : Z) : string :=
  "figure_" ++ Fmt.percent_0d 3 n ++ ".png".

(** Reading an attribute of [self], and [self.current_number += 1]. *)
Definition attr {A} (f : FigureDisplay -> A) : M (State World) A :=
  gets (fun st => f (self st)).

Definition incr_current_number : M (State World) unit :=
  modify (fun st =>
    {| self := set_current_number (current_number (self st) + 1) (self st);
       world := world st |}).

(** [if self.show_title == True and title is not None:
       fig.suptitle(title, **self.suptitle_kwargs)] *)
Definition stamp_title (fig : Figure) (title : option string) : M (State World) unit :=
  show ← attr show_title;
  match show, title with
  | true, Some t =>
      kwargs ← attr suptitle_kwargs;
      ext (fig_suptitle fig t kwargs)
  | _, _ => mret tt
  end.

(** The name [figsave] gives the next file:
    [os.path.join(self.dir_name, "figure_%03d.png" % self.current_number)] *)
Definition next_fname (self : FigureDisplay) : string :=
  posixpath.join (dir_name self) (figure_basename (current_number self)).

(** The object after [self.current_number += 1] *)
Definition bump (h : FigureDisplay) : FigureDisplay :=
  set_current_number (current_number h + 1) h.

(** [FigureDisplay.figsave] *)
Definition figsave (fig : Figure) (title : option string) : M (State World) string :=
  stamp_title fig title;;
  current_figure_number ← attr current_number;
  dir ← attr dir_name;
  let fname := posixpath.join dir (figure_basename current_figure_number) in
  facecolor ← ext (fig_get_facecolor fig);
  ext (fig_savefig fig fname "tight" facecolor);;
  incr_current_number;;
  ext (plt_close fig);;
  mret fname.

(** [FigureDisplay.figdisp] *)
Definition figdisp (fig : Figure) (title : option string) : M (State World) Shown :=
  fname ← figsave fig title;
  image ← ext (IPython_Image fname);
  ext (IPython_display image).

(** [FigureDisplay.__call__] *)
Definition __call__ (fig : option Figure) (title : option string) : M (State World) Shown :=
  fig ← match fig with
         | None => ext plt_gcf
         | Some f => mret f
         end;
  figdisp fig title.

(** A run of successful [figsave] calls on one object: the names returned,
    in call order.  The world before each call is arbitrary, other code may
    have run in between. *)
Inductive saves : FigureDisplay -> list string -> FigureDisplay -> Prop :=
| saves_nil h : saves h [] h
| saves_cons h fig title w name h' w' names h'' :
    figsave fig title {| self := h; world := w |}
      = (Ok name, {| self := h'; world := w' |}) ->
    saves h' names h'' ->
    saves h (name :: names) h''.

End FigureDisplay.

(** ** [tarshim.py]: the diagnostic plots *)

Section Plots.

(** The element type of the arrays with its subtraction and comparison
    (numpy's [float64] in practice, with its rounding), and the numpy
    functions whose results the code only passes on. *)
Context {Num : Type}.
Variable sub : Num -> Num -> Num.
Variable ltb : Num -> Num -> bool.
Variable np_percentile : list Num -> list Z -> list Num.
Variable np_mean : list Num -> Num.
Variable np_round : list Num -> Z -> list Num.

(** What has been drawn on an [Axes], in call order. *)
Inductive drawn : Type :=
| regplot (x y : list Num) (ci : Z) (color : string)
| plot (x y : list Num) (fmt color : string) (zorder : option Z)
| axhline (y : Z) (color : string) (zorder : Z) (ls : string)
| kdeplot (data : list Num) (vertical : bool)
| text (x y : Num) (s color size ha va : string)
| despine (left : bool)
| set_aspect_equal
| set_xlim (lo hi : Num)
| set_ylim (lo hi : Num)
| set_xlabel (s : string)
| set_ylabel (s : string)
| set_xticks (t : list Z)
| set_yticks (t : list Z)
| secondary_yaxis_ticks (t : list Num)
| spine_bottom_at_zero.

Definition Axes : Type := list drawn.

(** The limits matplotlib computes for what is drawn. *)
Variable get_xlim : Axes -> Num * Num.
Variable get_ylim : Axes -> Num * Num.

(** [a - b] on one-dimensional arrays, with numpy's broadcasting of an
    array of length one. *)
Definition np_subtract (a b : list Num) : Res (list Num) :=
  if Nat.eqb (length a) (length b) then Ok (zip_with sub a b)
  else match a, b with
       | _, [y] => Ok (map (fun x => sub x y) a)
       | [x], _ => Ok (map (fun y => sub x y) b)
       | _, _ => Raise ValueError
       end.

(** The builtins [min] and [max] on a non-empty sequence. *)
Definition py_min (l : list Num) : Res Num :=
  match l with
  | [] => Raise ValueError
  | x :: rest => Ok (fold_left (fun m y => if ltb y m then y else m) rest x)
  end.

Definition py_max (l : list Num) : Res Num :=
  match l with
  | [] => Raise ValueError
  | x :: rest => Ok (fold_left (fun m y => if ltb m y then y else m) rest x)
  end.

(** [ax = plt.subplots()[1]] when no axes are given *)
Definition axes_or_new (ax : option Axes) : Axes :=
  match ax with
  | Some a => a
  | None => []
  end.

Definition res_bind {A B} (r : Res A) (k : A -> Res B) : Res B :=
  match r with
  | Ok a => k a
  | Raise e => Raise e
  end.

(** [_actual_plot_observed_vs_predicted] *)
Definition _actual_plot_observed_vs_predicted (observations predictions : list Num)
    (ax : option Axes) (ylabel : bool) : Res Axes :=
  let ax := axes_or_new ax in
  let ax := (ax ++ [regplot predictions observations 99 "C0"])%list in
  res_bind (py_min observations) (fun mo =>
  res_bind (py_min predictions) (fun mp =>
  res_bind (py_min [mo; mp]) (fun mn =>
  res_bind (py_max observations) (fun xo =>
  res_bind (py_max predictions) (fun xp =>
  res_bind (py_max [xo; xp]) (fun mx =>
  let ax := (ax ++ [set_aspect_equal;
                    plot [mn; mx] [mn; mx] "--" "k" (Some (-1)%Z);
                    set_xlim mn mx; set_ylim mn mx;
                    despine false;
                    set_xlabel "Predicted"])%list in
  Ok (if ylabel then (ax ++ [set_ylabel "Observed"])%list else ax))))))).

(** [plot_residuals] *)
Definition plot_residuals (observations predictions : list Num)
    (ax : option Axes) (ylabel : bool) : Res Axes :=
  let ax := axes_or_new ax in
  res_bind (np_subtract observations predictions) (fun residuals =>
  let ax := (ax ++ [plot predictions residuals "o" "C0" None;
                    despine false;
                    axhline 0 "k" (-1) "--";
                    set_xlabel "Predicted"])%list in
  let ax := if ylabel then (ax ++ [set_ylabel "Obs $-$ Pred"])%list else ax in
  let ax := (ax ++ [text (snd (get_xlim ax)) (snd (get_ylim ax))
                      "Overestimation" "gray" "small" "right" "top"])%list in
  let ax := (ax ++ [text (snd (get_xlim ax)) (fst (get_ylim ax))
                      "Underestimation" "gray" "small" "right" "bottom"])%list in
  Ok ax).

(** [plot_residual_kde]; [reshape(-1)] leaves a one-dimensional array as
    it is. *)
Definition plot_residual_kde (residuals : list Num) (ax : Axes) : Axes :=
  let ax := (ax ++ [kdeplot residuals true; despine true; spine_bottom_at_zero])%list in
  let ps := (np_percentile residuals [5; 25; 75; 95]%Z ++ [np_mean residuals])%list in
  let tks := np_round ps 1 in
  let ax := (ax ++ [secondary_yaxis_ticks tks; set_yticks [0%Z]; set_xticks []])%list in
  let (lo, hi) := get_xlim ax in
  (ax ++ [set_xlim hi lo])%list.

(** An axes made by [plt.subplot2grid(shape, loc, rowspan, colspan)] with
    what has been drawn on it. *)
Record GridAxes : Type := {
  grid_shape : Z * Z;
  grid_loc : Z * Z;
  grid_rowspan : Z;
  grid_colspan : Z;
  drawn_on : Axes;
}.

(** The composite figure: its size in inches, its three panels, and the
    layout calls made at the end. *)
Record Panels : Type := {
  figsize : Z * Z;
  ax_obs_pred : GridAxes;
  ax_residuals : GridAxes;
  ax_residual_kde : GridAxes;
  tight_layout : bool;
  hspace : Z;
}.

(** [plot_observed_vs_predicted]; [fig] is the size of the figure passed in,
    if any.  The three axes are created empty on the grid and filled in
    turn. *)
Definition plot_observed_vs_predicted (observations predictions : list Num)
    (fig : option (Z * Z)) : Res Panels :=
  let fig := match fig with
             | None => (9, 9 + 3)%Z
             | Some size => size
             end in
  res_bind (_actual_plot_observed_vs_predicted observations predictions (Some []) true)
    (fun a1 =>
  res_bind (plot_residuals observations predictions (Some []) true) (fun a2 =>
  res_bind (np_subtract observations predictions) (fun residuals =>
  Ok {| figsize := fig;
        ax_obs_pred := {| grid_shape := (3, 4); grid_loc := (0, 1);
                          grid_rowspan := 2; grid_colspan := 3;
                          drawn_on := a1 |}%Z;
        ax_residuals := {| grid_shape := (3, 4); grid_loc := (2, 1);
                           grid_rowspan := 1; grid_colspan := 3;
                           drawn_on := a2 |}%Z;
        ax_residual_kde := {| grid_shape := (3, 4); grid_loc := (2, 0);
                              grid_rowspan := 1; grid_colspan := 1;
                              drawn_on := plot_residual_kde residuals [] |}%Z;
        tight_layout := true;
        hspace := 0 |}))).

(** The points of the scatter drawn by [ax.plot(x, y, 'o')] and the data of
    the density estimates on an axes. *)
Definition scatter_points (ax : Axes) : list (Num * Num) :=
  flat_map (fun d => match d with
                     | plot x y "o" _ _ => zip x y
                     | _ => []
                     end) ax.

Definition density_inputs (ax : Axes) : list (list Num) :=
  flat_map (fun d => match d with
                     | kdeplot data _ => [data]
                     | _ => []
                     end) ax.

End Plots.
Arguments Axes Num : clear implicits.
Arguments Panels Num : clear implicits.

(** Integer arrays for running the plots: the statistics are stand-ins (the
    first element for every percentile and for the mean, no rounding), the
    limits are those of an empty axes. *)
Module IntPlots.

Definition percentile (a : list Z) (q : list Z) : list Z :=
  map (fun _ => default 0%Z (head a)) q.

Definition mean (a : list Z) : Z := default 0%Z (head a).

Definition round (a : list Z) (decimals : Z) : list Z := a.

Definition lim (ax : Axes Z) : Z * Z := (0%Z, 1%Z).

Definition observations : list Z := [30; 55; 10]%Z.

Definition predictions : list Z := [25; 60; 10]%Z.

End IntPlots.

(** ** [tarshim.py]: tables with figures *)

(** A level of a column label, a column label as iterating [df.columns]
    yields it (a scalar for a flat index, a tuple for a [MultiIndex]), and a
    cell. *)
Inductive scalar : Type :=
| SStr (s : string)
| SInt (z : Z).

Inductive label : Type :=
| LScalar (x : scalar)
| LTuple (xs : list scalar).

#[global] Instance scalar_eq_dec : EqDecision scalar.
Proof. solve_decision. Defined.
#[global] Instance label_eq_dec : EqDecision label.
Proof. solve_decision. Defined.

(** The argument [figure_columns]: [None], the string ['infer'], or a list
    of column labels. *)
Inductive figure_columns_arg : Type :=
| FCNone
| FCInfer
| FCList (cols : list label).

(** [c[1] == 'fig'] *)
Definition second_is_fig (c : label) : Res bool :=
  match c with
  | LTuple xs =>
      match xs !! 1%nat with
      | Some x => Ok (bool_decide (x = SStr "fig"))
      | None => Raise IndexError
      end
  | LScalar (SStr s) =>
      match String.get 1 s with
      | Some ch => Ok (String.eqb (String ch EmptyString) "fig")
      | None => Raise IndexError
      end
  | LScalar (SInt _) => Raise TypeError
  end.

(** [[c for c in cols if c[1] == 'fig']] *)
Fixpoint infer_figure_columns (cols : list label) : Res (list label) :=
  match cols with
  | [] => Ok []
  | c :: rest =>
      match second_is_fig c with
      | Raise e => Raise e
      | Ok b =>
          match infer_figure_columns rest with
          | Raise e => Raise e
          | Ok sel => Ok (if b then c :: sel else sel)
          end
      end
  end.

(** A [dict] with labels as keys, in insertion order. *)
Fixpoint dict_set {V} (k : label) (v : V) (d : list (label * V)) : list (label * V) :=
  match d with
  | [] => [(k, v)]
  | (k', v') :: rest =>
      if decide (k' = k) then (k', v) :: rest else (k', v') :: dict_set k v rest
  end.

Fixpoint dict_get {V} (k : label) (d : list (label * V)) : option V :=
  match d with
  | [] => None
  | (k', v) :: rest => if decide (k' = k) then Some v else dict_get k rest
  end.

(** [{c: v for c in keys}] *)
Definition dict_from_keys {V} (keys : list label) (v : V) : list (label * V) :=
  fold_left (fun d c => dict_set c v d) keys [].

(** The second level of a column label in a [MultiIndex] of two or more
    levels. *)
Definition second_level (c : label) : option scalar :=
  match c with
  | LTuple xs => xs !! 1%nat
  | LScalar _ => None
  end.

Definition is_two_level (c : label) : bool :=
  match second_level c with
  | Some _ => true
  | None => false
  end.

Section Tables.
Context `{env : Env}.

(** A cell holds a figure or a plain value. *)
Inductive cell : Type :=
| CFigure (fig : Figure)
| CValue (x : scalar).

Record DataFrame : Type := {
  columns : list label;
  rows : list (list cell);
}.

Definition formatter : Type := cell -> M World string.

(** pandas and the encoders: [key in df.columns], [df.to_html(escape=e,
    formatters=f, border=b)], [fig.savefig] into a [BytesIO] buffer followed
    by [getvalue()], and [base64.b64encode(data).decode()]. *)
Variable index_contains : list label -> label -> bool.
Variable to_html : DataFrame -> bool -> list (label * formatter) -> Z -> M World string.
Variable fig_savefig_bytes : Figure -> string -> string -> Color -> M World (list Byte.byte).
Variable b64encode : list Byte.byte -> string.

Definition dquote : string := String "034"%char EmptyString.

(** [cell_figure_mapping] *)
Definition cell_figure_mapping : formatter := fun c =>
  match c with
  | CValue _ => raise AttributeError
  | CFigure fig =>
      facecolor ← fig_get_facecolor fig;
      data ← fig_savefig_bytes fig "png" "tight" facecolor;
      let figdata_png := b64encode data in
      mret ("<img src=" ++ dquote ++ "data:image/png;base64," ++ figdata_png
              ++ dquote ++ " />")
  end.

(** [for c in figure_columns: assert c in df.columns] *)
Fixpoint assert_all_in (cols : list label) (figure_columns : list label) : Res unit :=
  match figure_columns with
  | [] => Ok tt
  | c :: rest =>
      if index_contains cols c then assert_all_in cols rest
      else Raise AssertionError
  end.

(** The columns that get the figure formatter, or the exception raised
    while finding them. *)
Definition select_figure_columns (df : DataFrame) (figure_columns : figure_columns_arg)
    : Res (list label) :=
  match figure_columns with
  | FCNone => Ok []
  | FCInfer => infer_figure_columns (columns df)
  | FCList cols =>
      match assert_all_in (columns df) cols with
      | Ok tt => Ok cols
      | Raise e => Raise e
      end
  end.

(** [html_from_dataframe] *)
Definition html_from_dataframe (df : DataFrame) (figure_columns : figure_columns_arg)
    : M World string :=
  match select_figure_columns df figure_columns with
  | Raise e => raise e
  | Ok figure_columns =>
      let formatters := dict_from_keys figure_columns cell_figure_mapping in
      to_html df false formatters 0
  end.

End Tables.

(** ** A concrete world: a small POSIX file system, pyplot and a notebook *)

Module Sim.

(** A resolved path: its components from the root. *)
Definition path : Type := list string.

Record png : Type := {
  png_title : option (string * gmap string value);
  png_facecolor : string;
  png_bbox : string;
}.

Inductive node : Type :=
| Dir
| File (img : png).

Record fig_state : Type := {
  fig_title : option (string * gmap string value);
  fig_facecolor : string;
}.

Record sim_world : Type := {
  cwd : string;
  fs : gmap path node;
  (** directories in which entries can be neither created nor removed *)
  readonly : gset path;
  (** the figure objects, by reference *)
  figures : gmap nat fig_state;
  (** the figures pyplot manages; the last one is the current figure *)
  managed : list nat;
  (** the images shown in the notebook so far *)
  notebook : list png;
}.

Definition set_fs (f : gmap path node) (w : sim_world) : sim_world :=
  {| cwd := cwd w; fs := f; readonly := readonly w; figures := figures w;
     managed := managed w; notebook := notebook w |}.

Definition set_figures (fg : gmap nat fig_state) (w : sim_world) : sim_world :=
  {| cwd := cwd w; fs := fs w; readonly := readonly w; figures := fg;
     managed := managed w; notebook := notebook w |}.

Definition set_managed (m : list nat) (w : sim_world) : sim_world :=
  {| cwd := cwd w; fs := fs w; readonly := readonly w; figures := figures w;
     managed := m; notebook := notebook w |}.

Definition set_notebook (n : list png) (w : sim_world) : sim_world :=
  {| cwd := cwd w; fs := fs w; readonly := readonly w; figures := figures w;
     managed := managed w; notebook := n |}.

(** Lexical resolution of a path string against the working directory. *)
Definition resolve (w : sim_world) (p : string) : path :=
  let full := if posixpath.isabs p then p else posixpath.join (cwd w) p in
  posixpath.normpath_loop 1 (Str.split posixpath.sep full) [].

Definition parent (q : path) : path := take (length q - 1) q.

Definition strictly_below (r q : path) : Prop := r `prefix_of` q ∧ r ≠ q.

#[global] Instance strictly_below_dec r q : Decision (strictly_below r q).
Proof. unfold strictly_below. apply _. Defined.

(** Some entry below [r] sits in a read-only directory. *)
Definition blocked_below (w : sim_world) (r : path) : Prop :=
  set_Exists (fun q => strictly_below r q ∧ parent q ∈ readonly w) (dom (fs w)).

#[global] Instance blocked_below_dec w r : Decision (blocked_below w r).
Proof. unfold blocked_below. apply _. Defined.

Definition remove_below (r : path) (f : gmap path node) : gmap path node :=
  filter (fun kv => ¬ strictly_below r kv.1) f.

(** Every entry but the root lies in an entry that exists. *)
Definition wf (w : sim_world) : Prop :=
  set_Forall (fun q => q = [] ∨ is_Some (fs w !! parent q)) (dom (fs w)).

#[global] Instance wf_dec w : Decision (wf w).
Proof. unfold wf. apply _. Defined.

(** [shutil.rmtree(p)].  When an entry cannot be removed the traversal is
    taken to meet it first, so nothing has been removed yet; the directory
    itself is removed last, after its contents. *)
Definition rmtree (p : string) : M sim_world unit := fun w =>
  let r := resolve w p in
  match fs w !! r with
  | None => (Raise FileNotFoundError, w)
  | Some (File _) => (Raise NotADirectoryError, w)
  | Some Dir =>
      if decide (blocked_below w r) then (Raise PermissionError, w)
      else
        let emptied := set_fs (remove_below r (fs w)) w in
        match r with
        | [] => (Raise OSError, emptied)
        | _ =>
            if decide (parent r ∈ readonly w) then (Raise PermissionError, emptied)
            else (Ok tt, set_fs (delete r (remove_below r (fs w))) w)
        end
  end.

(** [os.mkdir] on a resolved path *)
Definition mkdir (r : path) : M sim_world unit := fun w =>
  match fs w !! r with
  | Some _ => (Raise FileExistsError, w)
  | None =>
      match r with
      | [] => (Raise FileExistsError, w)
      | _ =>
          match fs w !! parent r with
          | None => (Raise FileNotFoundError, w)
          | Some (File _) => (Raise NotADirectoryError, w)
          | Some Dir =>
              if decide (parent r ∈ readonly w) then (Raise PermissionError, w)
              else (Ok tt, set_fs (<[r := Dir]> (fs w)) w)
          end
      end
  end.

(** [os.makedirs]: the missing ancestors are created from the top, then
    the leaf, which must not exist. *)
Fixpoint makedirs_from (done : path) (todo : list string) : M sim_world unit :=
  match todo with
  | [] => mkdir done
  | [leaf] => mkdir (done ++ [leaf])%list
  | c :: rest =>
      (fun w => match fs w !! (done ++ [c])%list with
                | Some _ => (Ok tt, w)
                | None => mkdir (done ++ [c])%list w
                end);;
      makedirs_from (done ++ [c])%list rest
  end.

Definition makedirs (p : string) : M sim_world unit := fun w =>
  makedirs_from [] (resolve w p) w.

Definition suptitle (fig : nat) (t : string) (kwargs : gmap string value)
    : M sim_world unit := fun w =>
  match figures w !! fig with
  | None => (Raise RuntimeError, w)
  | Some st =>
      (Ok tt, set_figures (<[fig := {| fig_title := Some (t, kwargs);
                                        fig_facecolor := fig_facecolor st |}]> (figures w)) w)
  end.

Definition get_facecolor (fig : nat) : M sim_world string := fun w =>
  match figures w !! fig with
  | None => (Raise RuntimeError, w)
  | Some st => (Ok (fig_facecolor st), w)
  end.

(** [fig.savefig(fname, bbox_inches=bbox, facecolor=color)] writes the
    picture of the figure as it is now. *)
Definition savefig (fig : nat) (fname bbox color : string) : M sim_world unit := fun w =>
  match figures w !! fig with
  | None => (Raise RuntimeError, w)
  | Some st =>
      let r := resolve w fname in
      let img := {| png_title := fig_title st; png_facecolor := color; png_bbox := bbox |} in
      match r, fs w !! parent r, fs w !! r with
      | [], _, _ => (Raise IsADirectoryError, w)
      | _, _, Some Dir => (Raise IsADirectoryError, w)
      | _, None, _ => (Raise FileNotFoundError, w)
      | _, Some (File _), _ => (Raise NotADirectoryError, w)
      | _, Some Dir, Some (File _) => (Ok tt, set_fs (<[r := File img]> (fs w)) w)
      | _, Some Dir, None =>
          if decide (parent r ∈ readonly w) then (Raise PermissionError, w)
          else (Ok tt, set_fs (<[r := File img]> (fs w)) w)
      end
  end.

(** [plt.close(fig)]: pyplot forgets the figure. *)
Definition close (fig : nat) : M sim_world unit := fun w =>
  (Ok tt, set_managed (filter (fun n => n ≠ fig) (managed w)) w).

Definition fresh_figure (w : sim_world) : nat :=
  S (max_list (elements (dom (figures w)))).

(** [plt.gcf()]: the current figure; a new one is made when pyplot manages
    none. *)
Definition gcf : M sim_world nat := fun w =>
  match last (managed w) with
  | Some n => (Ok n, w)
  | None =>
      let n := fresh_figure w in
      (Ok n, set_managed [n]
               (set_figures (<[n := {| fig_title := None; fig_facecolor := "white" |}]>
                               (figures w)) w))
  end.

(** [Image(fname)] reads the file. *)
Definition Image (fname : string) : M sim_world png := fun w =>
  match fs w !! resolve w fname with
  | None => (Raise FileNotFoundError, w)
  | Some Dir => (Raise IsADirectoryError, w)
  | Some (File img) => (Ok img, w)
  end.

(** [display(image)] shows it and returns [None]. *)
Definition display (img : png) : M sim_world unit := fun w =>
  (Ok tt, set_notebook (notebook w ++ [img])%list w).

#[global] Instance env : Env := {|
  World := sim_world;
  Figure := nat;
  Color := string;
  ImageObj := png;
  Shown := unit;
  os_getcwd := gets cwd;
  shutil_rmtree := rmtree;
  os_makedirs := makedirs;
  fig_suptitle := suptitle;
  fig_get_facecolor := get_facecolor;
  fig_savefig := savefig;
  plt_close := close;
  plt_gcf := gcf;
  IPython_Image := Image;
  IPython_display := display;
|}.

(** A session started in [/home/u] with one open white figure. *)
Definition w0 : sim_world :=
  {| cwd := "/home/u";
     fs := <[["home"; "u"] := Dir]> (<[["home"] := Dir]> (<[[] := Dir]> ∅));
     readonly := ∅;
     figures := <[1%nat := {| fig_title := None; fig_facecolor := "white" |}]> ∅;
     managed := [1%nat];
     notebook := [] |}.

(** The object made by [FigureDisplay("report")] in that session, and the
    session after construction and after each of two saves of figure 1, the
    first with a title. *)
Definition h1 : FigureDisplay :=
  {| report_name := "report"; show_title := true; current_number := 1;
     suptitle_kwargs := dict_update default_suptitle_kwargs ∅;
     dir_name := "/home/u/figures/report" |}.

Definition w1 : sim_world := snd (__init__ "report" true "figures" ∅ w0).

Definition st1 : State sim_world := {| self := h1; world := w1 |}.

Definition st2 : State sim_world := snd (figsave (1%nat : Figure) (Some "Title") st1).

Definition st3 : State sim_world := snd (figsave (1%nat : Figure) None st2).

(** A plain rendering of a table for running [html_from_dataframe]: a cell
    goes through the formatter of its column when there is one and is
    printed as it is otherwise. *)
Definition default_cell_html (c : cell) : string :=
  match c with
  | CFigure fig => "Figure(" ++ Fmt.str_N (N.of_nat fig) ++ ")"
  | CValue (SStr s) => s
  | CValue (SInt z) => Fmt.percent_0d 0 z
  end.

Fixpoint row_html (formatters : list (label * formatter)) (cols : list label)
    (row : list cell) : M sim_world string :=
  match cols, row with
  | c :: cols', x :: row' =>
      td ← match dict_get c formatters with
           | Some f => f x
           | None => mret (default_cell_html x)
           end;
      rest ← row_html formatters cols' row';
      mret ("<td>" ++ td ++ "</td>" ++ rest)
  | _, _ => mret ""
  end.

Fixpoint rows_html (formatters : list (label * formatter)) (cols : list label)
    (rows : list (list cell)) : M sim_world string :=
  match rows with
  | [] => mret ""
  | r :: rows' =>
      tr ← row_html formatters cols r;
      rest ← rows_html formatters cols rows';
      mret ("<tr>" ++ tr ++ "</tr>" ++ rest)
  end.

Definition to_html (df : DataFrame) (escape : bool)
    (formatters : list (label * formatter)) (border : Z) : M sim_world string :=
  body ← rows_html formatters (columns df) (rows df);
  mret ("<table border=" ++ Fmt.percent_0d 0 border ++ ">" ++ body ++ "</table>").

(** Membership in a flat index or in a [MultiIndex] by full label. *)
Definition index_contains (cols : list label) (c : label) : bool :=
  bool_decide (c ∈ cols).

(** Writing into a buffer: the bytes stand for the picture. *)
Definition savefig_bytes (fig : nat) (format bbox color : string)
    : M sim_world (list Byte.byte) := fun w =>
  match figures w !! fig with
  | None => (Raise RuntimeError, w)
  | Some st => (Ok (list_byte_of_string (format ++ ":" ++ color)), w)
  end.

Definition b64encode (data : list Byte.byte) : string :=
  Fmt.str_N (N.of_nat (length data)).

Definition html (df : DataFrame) (figure_columns : figure_columns_arg)
    : M sim_world string :=
  html_from_dataframe index_contains to_html savefig_bytes b64encode df figure_columns.

(** A table with a two-level column index: a name and a figure per row. *)
Definition df_reports : DataFrame :=
  {| columns := [LTuple [SStr "model"; SStr "name"]; LTuple [SStr "model"; SStr "fig"]];
     rows := [[CValue (SStr "linear"); CFigure 1%nat];
              [CValue (SStr "tree"); CFigure 1%nat]] |}.

(** The session [w1] in which the report directory holds an old picture
    and has lost its write permission. *)
Definition old_png : png :=
  {| png_title := None; png_facecolor := "white"; png_bbox := "tight" |}.

Definition w_locked : sim_world :=
  {| cwd := cwd w1;
     fs := <[["home"; "u"; "figures"; "report"; "old.png"] := File old_png]> (fs w1);
     readonly := {[ ["home"; "u"; "figures"; "report"] ]};
     figures := figures w1;
     managed := managed w1;
     notebook := notebook w1 |}.

(** [FigureDisplay("")] made after the two saves of the report. *)
Definition h_empty : FigureDisplay :=
  {| report_name := ""; show_title := true; current_number := 1;
     suptitle_kwargs := dict_update default_suptitle_kwargs ∅;
     dir_name := "/home/u/figures/" |}.

Definition w_reset : sim_world := snd (__init__ "" true "figures" ∅ (world st3)).

(** The session [w1] after something else has removed [figures], and the
    object [h1] in it. *)
Definition w_gone : sim_world := snd (rmtree "/home/u/figures" w1).

Definition st_gone : State sim_world := {| self := h1; world := w_gone |}.

End Sim.

(** ** Runs of calls *)

Section Runs.
Context `{env : Env}.

(** The name under which [fig.savefig] returned during a [figsave] call,
    if the call got that far and the write returned. *)
Definition written_by (fig : Figure) (title : option string) (st : State World)
    : option string :=
  match stamp_title fig title st with
  | (Ok _, st1) =>
      match fig_get_facecolor fig (world st1) with
      | (Ok c, w2) =>
          match fig_savefig fig (next_fname (self st1)) "tight" c w2 with
          | (Ok _, _) => Some (next_fname (self st1))
          | (Raise _, _) => None
          end
      | (Raise _, _) => None
      end
  | (Raise _, _) => None
  end.

(** Any run of [figsave] calls on one object, returning or raising, with
    the names of the files written on the way. *)
Inductive attempts : FigureDisplay -> list string -> FigureDisplay -> Prop :=
| attempts_nil h : attempts h [] h
| attempts_cons h fig title w r h' w' names h'' :
    figsave fig title {| self := h; world := w |} = (r, {| self := h'; world := w' |}) ->
    attempts h' names h'' ->
    attempts h (option_list (written_by fig title {| self := h; world := w |}) ++ names)%list
      h''.

(** A run of returning [figsave] calls with nothing in between: each call
    starts in the state the one before has left. *)
Inductive saves_from : State World -> list string -> State World -> Prop :=
| saves_from_nil st : saves_from st [] st
| saves_from_cons st fig title name st1 names st2 :
    figsave fig title st = (Ok name, st1) ->
    saves_from st1 names st2 ->
    saves_from st (name :: names) st2.

End Runs.

(** A path component that [normpath] keeps as it is: not empty, not [.] or
    [..], and without a separator. *)
Fixpoint no_sep (s : string) : bool :=
  match s with
  | EmptyString => true
  | String c s' => negb (Ascii.eqb c posixpath.sep) && no_sep s'
  end.

Definition plain_component (s : string) : bool :=
  no_sep s && negb (String.eqb s "") && negb (String.eqb s ".")
  && negb (String.eqb s "..").

(** The proper prefixes of a resolved path, the root first. *)
Definition ancestors (r : Sim.path) : list Sim.path :=
  map (fun n => take n r) (seq 0 (length r)).

(** Every ancestor of [r] that exists is a directory, and none is
    read-only: the missing part of [r] can be created. *)
Definition creatable (w : Sim.sim_world) (r : Sim.path) : bool :=
  forallb (fun q => match Sim.fs w !! q with
                    | Some (Sim.File _) => false
                    | _ => negb (bool_decide (q ∈ Sim.readonly w))
                    end) (ancestors r).

(** Two tables with a flat column index: pandas' default integer labels,
    and names, one of them ['fig']. *)
Definition df_range : @DataFrame Sim.env :=
  {| columns := [LScalar (SInt 0); LScalar (SInt 1)];
     rows := [[CValue (SStr "linear"); CFigure 1%nat]] |}.

Definition df_flat : @DataFrame Sim.env :=
  {| columns := [LScalar (SStr "name"); LScalar (SStr "fig")];
     rows := [[CValue (SStr "linear"); CFigure 1%nat]] |}.

(** A second report made in the session that already holds the two figures
    of the first. *)
Definition h_second : FigureDisplay :=
  {| report_name := "second"; show_title := false; current_number := 1;
     suptitle_kwargs := dict_update default_suptitle_kwargs ∅;
     dir_name := "/home/u/figures/second" |}.

Definition w_second : Sim.sim_world :=
  snd (__init__ "second" false "figures" ∅ (world Sim.st3)).

(** * Properties *)

(** ** The definitions on concrete inputs *)

Example join_relative :
  posixpath.join "/home/u/figures" "report" = "/home/u/figures/report".
Proof. reflexivity. Qed.

Example join_empty_segment : posixpath.join "/home/u/figures" "" = "/home/u/figures/".
Proof. reflexivity. Qed.

Example join_absolute_segment : posixpath.join "/home/u/figures" "/tmp/r" = "/tmp/r".
Proof. reflexivity. Qed.

Example abspath_relative : posixpath.abspath_from "/home/u" "figures" = "/home/u/figures".
Proof. reflexivity. Qed.

Example abspath_dots :
  posixpath.abspath_from "/home/u" "../x/./figures/" = "/home/x/figures".
Proof. reflexivity. Qed.

Example normpath_two_slashes : posixpath.normpath "//a//b/../c" = "//a/c".
Proof. reflexivity. Qed.

Example figure_basename_values :
  map figure_basename [1; 42; 999; 1000; 12345]%Z
  = ["figure_001.png"; "figure_042.png"; "figure_999.png"; "figure_1000.png";
     "figure_12345.png"].
Proof. reflexivity. Qed.

Example percent_0d_negative : Fmt.percent_0d 3 (-5) = "-05".
Proof. reflexivity. Qed.

(** Labels of a flat index have no second level: a one-character name and
    a number make ['infer'] raise, a longer name is not selected. *)
Example second_is_fig_flat :
  second_is_fig (LScalar (SStr "a")) = Raise IndexError
  /\ second_is_fig (LScalar (SInt 0)) = Raise TypeError
  /\ second_is_fig (LScalar (SStr "fig")) = Ok false
  /\ second_is_fig (LTuple [SStr "model"; SStr "fig"]) = Ok true.
Proof. repeat split; reflexivity. Qed.

(** The first save of the report stamps the title and writes figure 1; the
    file holds the title with the default options. *)
Example first_save :
  fst (figsave (1%nat : Figure) (Some "Title") Sim.st1)
  = Ok "/home/u/figures/report/figure_001.png"
  /\ Sim.fs (world Sim.st2) !! ["home"; "u"; "figures"; "report"; "figure_001.png"]
     = Some (Sim.File {| Sim.png_title := Some ("Title", default_suptitle_kwargs);
                         Sim.png_facecolor := "white";
                         Sim.png_bbox := "tight" |}).
Proof. split; vm_compute; reflexivity. Qed.

(** With [show_title=False] the same save writes the figure without a
    title. *)
Example save_without_show_title :
  let st := {| self := {| report_name := "report"; show_title := false;
                          current_number := 1;
                          suptitle_kwargs := default_suptitle_kwargs;
                          dir_name := "/home/u/figures/report" |};
               world := Sim.w1 |} in
  Sim.fs (world (snd (figsave (1%nat : Figure) (Some "Title") st)))
    !! ["home"; "u"; "figures"; "report"; "figure_001.png"]
  = Some (Sim.File Sim.old_png).
Proof. vm_compute. reflexivity. Qed.

(** One image tag per row in the figure column, none in the other. *)
Example html_of_reports :
  fst (Sim.html Sim.df_reports FCInfer Sim.w1)
  = Ok ("<table border=0>"
        ++ "<tr><td>linear</td><td><img src=" ++ dquote
        ++ "data:image/png;base64,9" ++ dquote ++ " /></td></tr>"
        ++ "<tr><td>tree</td><td><img src=" ++ dquote
        ++ "data:image/png;base64,9" ++ dquote ++ " /></td></tr>"
        ++ "</table>").
Proof. vm_compute. reflexivity. Qed.

(** ** Decimal conversion *)

Module FmtFacts.
Import Fmt.

Lemma digit_val_char d : (d < 10)%N -> digit_val (digit_char d) = d.
Proof.
  intros Hd. unfold digit_val, digit_char.
  rewrite N_ascii_embedding by lia. lia.
Qed.

Lemma parse_digits_go fuel : forall n acc,
  (n < 2 ^ N.of_nat fuel)%N ->
  exists k, forall a,
    parse_go a (digits_go fuel n acc) = parse_go (a * 10 ^ k + n) acc.
Proof.
  induction fuel as [|fuel IH]; intros n acc Hn.
  - exists 0%N. intros a. simpl in *. f_equal. lia.
  - cbn [digits_go]. destruct (N.ltb_spec n 10) as [Hlt|Hge].
    + exists 1%N. intros a. cbn [parse_go].
      rewrite N.mod_small, digit_val_char by lia. f_equal; lia.
    + destruct (IH (n / 10)%N (String (digit_char (n mod 10)) acc)) as [k Hk].
      { rewrite Nat2N.inj_succ, N.pow_succ_r' in Hn.
        apply N.Div0.div_lt_upper_bound. lia. }
      exists (N.succ k). intros a. rewrite Hk. cbn [parse_go].
      rewrite digit_val_char by (apply N.mod_lt; lia).
      f_equal. rewrite N.pow_succ_r'.
      pose proof (N.div_mod n 10 ltac:(lia)). lia.
Qed.

Lemma log2_fuel n : (n < 2 ^ N.of_nat (S (N.to_nat (N.log2 n))))%N.
Proof.
  rewrite Nat2N.inj_succ, N2Nat.id.
  destruct (N.eq_dec n 0%N) as [->|Hn]; [reflexivity|].
  apply N.log2_spec. lia.
Qed.

Lemma parse_str_N n : parse (str_N n) = n.
Proof.
  unfold parse, str_N.
  destruct (parse_digits_go _ n "" (log2_fuel n)) as [k Hk].
  rewrite Hk. simpl. lia.
Qed.

Lemma parse_zeros m s : parse (Str.replicate_char m "0" ++ s) = parse s.
Proof. induction m as [|m IH]; [reflexivity|]. exact IH. Qed.

Lemma parse_zero_pad w s : parse (zero_pad w s) = parse s.
Proof. apply parse_zeros. Qed.

Lemma parse_percent_0d w n : (0 <= n)%Z -> parse (percent_0d w n) = Z.to_N n.
Proof.
  intros Hn. destruct n as [|p|p]; [| |lia];
    unfold percent_0d; rewrite parse_zero_pad; apply parse_str_N.
Qed.

Lemma percent_0d_inj w n m :
  (0 <= n)%Z -> (0 <= m)%Z -> percent_0d w n = percent_0d w m -> n = m.
Proof.
  intros Hn Hm E. apply (f_equal parse) in E.
  rewrite !parse_percent_0d in E by done. lia.
Qed.

End FmtFacts.

(** ** The monad, step by step *)

Ltac unfold_monad :=
  unfold mbind, mret, M_bind, M_ret, bind, ret, raise, gets, modify in *.

(** ** [FigureDisplay]: what a call does to the object and the world *)

Section FigureDisplayFacts.
Context `{env : Env}.

Lemma stamp_title_run fig title st :
  stamp_title fig title st =
    match show_title (self st), title with
    | true, Some t =>
        match fig_suptitle fig t (suptitle_kwargs (self st)) (world st) with
        | (r, w1) => (r, Build_State (self st) w1)
        end
    | _, _ => (Ok tt, st)
    end.
Proof.
  unfold stamp_title, attr, ext. unfold_monad.
  destruct (show_title (self st)), title; reflexivity.
Qed.

Lemma stamp_title_self fig title st :
  self (snd (stamp_title fig title st)) = self st.
Proof.
  rewrite stamp_title_run.
  destruct (show_title (self st)), title; try reflexivity.
  destruct (fig_suptitle _ _ _ _); reflexivity.
Qed.

(** [figsave] as the chain of its library calls. *)
Lemma figsave_run fig title st :
  figsave fig title st =
    match stamp_title fig title st with
    | (Raise e, st1) => (Raise e, st1)
    | (Ok _, st1) =>
        match fig_get_facecolor fig (world st1) with
        | (Raise e, w2) => (Raise e, Build_State (self st1) w2)
        | (Ok c, w2) =>
            match fig_savefig fig (next_fname (self st1)) "tight" c w2 with
            | (Raise e, w3) => (Raise e, Build_State (self st1) w3)
            | (Ok _, w3) =>
                match plt_close fig w3 with
                | (Raise e, w4) => (Raise e, Build_State (bump (self st1)) w4)
                | (Ok _, w4) => (Ok (next_fname (self st1)), Build_State (bump (self st1)) w4)
                end
            end
        end
    end.
Proof.
  unfold figsave, attr, incr_current_number, ext, next_fname, bump. unfold_monad.
  destruct (stamp_title fig title st) as [[[]|e] st1]; [|reflexivity].
  destruct (fig_get_facecolor fig (world st1)) as [[c|e] w2]; [|reflexivity].
  cbn [self world].
  destruct (fig_savefig _ _ _ _ _) as [[[]|e] w3]; [|reflexivity].
  cbn [self world].
  destruct (plt_close fig w3) as [[[]|e] w4]; reflexivity.
Qed.

(** A save that returns has used the current number for its name and has
    moved the counter on by one; nothing else of the object changes. *)
Lemma figsave_Ok fig title st name st' :
  figsave fig title st = (Ok name, st') ->
  name = next_fname (self st) /\ self st' = bump (self st).
Proof.
  rewrite figsave_run. pose proof (stamp_title_self fig title st) as Hs.
  destruct (stamp_title fig title st) as [[[]|e] st1]; [|discriminate].
  cbn [snd] in Hs. rewrite Hs.
  destruct (fig_get_facecolor _ _) as [[c|e] w2]; [|discriminate].
  destruct (fig_savefig _ _ _ _ _) as [[[]|e] w3]; [|discriminate].
  destruct (plt_close _ _) as [[[]|e] w4]; [|discriminate].
  intros [= <- <-]. split; reflexivity.
Qed.

Lemma saves_inv h names h' :
  saves h names h' ->
  names = (fun i => posixpath.join (dir_name h) (figure_basename i))
            <$> seqZ (current_number h) (Z.of_nat (length names))
  /\ current_number h' = (current_number h + Z.of_nat (length names))%Z
  /\ dir_name h' = dir_name h
  /\ show_title h' = show_title h
  /\ suptitle_kwargs h' = suptitle_kwargs h
  /\ report_name h' = report_name h.
Proof.
  induction 1 as [h|h fig title w name h' w' names h'' Hsave _ IH].
  - cbn. rewrite seqZ_nil by lia. repeat split; lia.
  - apply figsave_Ok in Hsave as [-> Hh']. cbn [self] in Hh'. subst h'.
    destruct IH as (IHn & IHc & IHd & IHs & IHk & IHr). cbn in *.
    rewrite IHc, IHd, IHs, IHk, IHr. repeat split; try lia.
    rewrite seqZ_cons by lia. cbn [fmap list_fmap]. f_equal.
    rewrite IHn at 1. do 2 f_equal; lia.
Qed.

(** [__init__] as the chain of its library calls. *)
Lemma init_run rn show pd kw w :
  __init__ rn show pd kw w =
    match os_path_abspath pd w with
    | (Raise e, w1) => (Raise e, w1)
    | (Ok parent, w1) =>
        let d := posixpath.join parent rn in
        let make w2 :=
          match os_makedirs d w2 with
          | (Ok _, w3) =>
              (Ok {| report_name := rn; show_title := show; current_number := 1;
                     suptitle_kwargs := dict_update default_suptitle_kwargs kw;
                     dir_name := d |}, w3)
          | (Raise e, w3) => (Raise e, w3)
          end in
        match shutil_rmtree d w1 with
        | (Ok _, w2) => make w2
        | (Raise e, w2) => if is_OSError e then make w2 else (Raise e, w2)
        end
    end.
Proof.
  unfold __init__, try_except_OSError_pass. unfold_monad.
  destruct (os_path_abspath pd w) as [[parent|e] w1]; [|reflexivity].
  cbn zeta.
  destruct (shutil_rmtree _ w1) as [[[]|e] w2].
  - destruct (os_makedirs _ w2) as [[[]|e] w3]; reflexivity.
  - destruct (is_OSError e); [|reflexivity].
    destruct (os_makedirs _ w2) as [[[]|e'] w3]; reflexivity.
Qed.

(** The object a successful construction returns. *)
Lemma init_Ok rn show pd kw w h w' :
  __init__ rn show pd kw w = (Ok h, w') ->
  exists parent w1,
    os_path_abspath pd w = (Ok parent, w1)
    /\ h = {| report_name := rn; show_title := show; current_number := 1;
              suptitle_kwargs := dict_update default_suptitle_kwargs kw;
              dir_name := posixpath.join parent rn |}.
Proof.
  rewrite init_run.
  destruct (os_path_abspath pd w) as [[parent|e] w1]; [|discriminate].
  cbn zeta. intros H. exists parent, w1. split; [reflexivity|].
  destruct (shutil_rmtree _ w1) as [[[]|e] w2];
    [|destruct (is_OSError e); [|discriminate]];
    destruct (os_makedirs _ w2) as [[[]|e'] w3]; congruence.
Qed.

End FigureDisplayFacts.

(** ** File names *)

Lemma parse_go_app s t a :
  Fmt.parse_go a (s ++ t) = Fmt.parse_go (Fmt.parse_go a s) t.
Proof. revert a. induction s as [|c s IH]; intros a; [reflexivity|]. apply IH. Qed.

Lemma figure_basename_inj i j :
  (0 <= i)%Z -> (0 <= j)%Z -> figure_basename i = figure_basename j -> i = j.
Proof.
  unfold figure_basename. intros Hi Hj E.
  apply (inj (String.append "figure_")) in E.
  apply (f_equal Fmt.parse) in E. unfold Fmt.parse in E.
  rewrite !parse_go_app in E.
  fold (Fmt.parse (Fmt.percent_0d 3 i)) in E.
  fold (Fmt.parse (Fmt.percent_0d 3 j)) in E.
  rewrite !FmtFacts.parse_percent_0d in E by done.
  cbn in E. lia.
Qed.

Lemma string_app_assoc (s t u : string) : s ++ t ++ u = (s ++ t) ++ u.
Proof.
  induction s as [|c s IH]; [reflexivity|].
  change (String c (s ++ t ++ u) = String c ((s ++ t) ++ u)). by rewrite IH.
Qed.

(** Joining the directory with a figure name puts the same prefix before
    the name, whatever the number. *)
Lemma join_figure_basename d i :
  posixpath.join d (figure_basename i)
  = (if (String.eqb d "" || Str.endswith_char posixpath.sep d)%bool then d else d ++ "/")
      ++ figure_basename i.
Proof.
  unfold posixpath.join.
  assert (Str.startswith_char posixpath.sep (figure_basename i) = false) as ->
    by reflexivity.
  destruct (_ || _)%bool; [reflexivity|].
  apply string_app_assoc.
Qed.

Lemma next_name_inj d i j :
  (0 <= i)%Z -> (0 <= j)%Z ->
  posixpath.join d (figure_basename i) = posixpath.join d (figure_basename j) -> i = j.
Proof.
  intros Hi Hj. rewrite !join_figure_basename. intros E.
  apply (inj (String.append _)) in E. by apply figure_basename_inj.
Qed.

(** ** C1: the names of consecutive saves *)

(** C1. From construction on, a run of N saves that return gives the names
    figure_001.png to figure_N (zero padded to three digits) in the
    object's directory, in call order: the n-th name carries the number n,
    no two names are equal, and the counter, which starts at 1, ends at
    N + 1. *)
Theorem figsave_names_sequential `{env : Env} rn show pd kw w h w' names h' :
  __init__ rn show pd kw w = (Ok h, w') ->
  saves h names h' ->
  current_number h = 1%Z
  /\ names = (fun n => posixpath.join (dir_name h)
                         ("figure_" ++ Fmt.percent_0d 3 n ++ ".png"))
               <$> seqZ 1 (Z.of_nat (length names))
  /\ NoDup names
  /\ current_number h' = (1 + Z.of_nat (length names))%Z.
Proof.
  intros Hinit Hsaves.
  apply init_Ok in Hinit as (parent & w1 & _ & Hh).
  assert (Hc : current_number h = 1%Z) by (subst h; reflexivity).
  apply saves_inv in Hsaves as (Hnames & Hcount & _).
  rewrite Hc in Hnames, Hcount.
  split; [exact Hc|]. split; [exact Hnames|]. split; [|exact Hcount].
  rewrite Hnames. apply NoDup_fmap_2_strong; [|apply NoDup_seqZ].
  intros i j Hi%elem_of_seqZ Hj%elem_of_seqZ E.
  apply next_name_inj in E; [done|lia..].
Qed.

Lemma figsave_names_sequential_witness :
  let names := ["/home/u/figures/report/figure_001.png";
                "/home/u/figures/report/figure_002.png"] in
  current_number Sim.h1 = 1%Z
  /\ names = (fun n => posixpath.join (dir_name Sim.h1)
                         ("figure_" ++ Fmt.percent_0d 3 n ++ ".png"))
               <$> seqZ 1 (Z.of_nat (length names))
  /\ NoDup names
  /\ current_number (self Sim.st3) = (1 + Z.of_nat (length names))%Z.
Proof.
  apply (@figsave_names_sequential Sim.env "report" true "figures" ∅
           Sim.w0 Sim.h1 Sim.w1).
  - vm_compute. reflexivity.
  - apply (@saves_cons Sim.env Sim.h1 1%nat (Some "Title") Sim.w1 _
             (self Sim.st2) (world Sim.st2)).
    + vm_compute. reflexivity.
    + apply (@saves_cons Sim.env (self Sim.st2) 1%nat None (world Sim.st2) _
               (self Sim.st3) (world Sim.st3)).
      * vm_compute. reflexivity.
      * apply saves_nil.
Defined.

(** ** C2: removal failures at construction *)

(** C2 fails as stated: a removal that fails with permission denied does
    not propagate.  With a read-only report directory that holds a file,
    [shutil.rmtree] raises [PermissionError], the handler of [OSError]
    swallows it, and what the caller gets is the [FileExistsError] of
    [os.makedirs]. *)
Lemma init_swallows_permission_error :
  shutil_rmtree "/home/u/figures/report" Sim.w_locked
    = (Raise PermissionError, Sim.w_locked)
  /\ __init__ "report" true "figures" ∅ Sim.w_locked
      = (Raise FileExistsError, Sim.w_locked)
  /\ fst (__init__ "report" true "figures" ∅ Sim.w_locked) <> Raise PermissionError.
Proof.
  split; [vm_compute; reflexivity|].
  split; [vm_compute; reflexivity|].
  vm_compute. discriminate.
Qed.

(** C2, amended.  Every [OSError] raised by the removal, whether path not
    found, permission denied or any other, is swallowed: construction goes
    on to [os.makedirs] on the same path in the world the removal left, and
    the outcome of that call is the outcome of construction.  Only a removal
    exception that is not an [OSError] propagates. *)
Theorem init_rmtree_failure `{env : Env} rn show pd kw w parent w1 e w2 :
  os_path_abspath pd w = (Ok parent, w1) ->
  shutil_rmtree (posixpath.join parent rn) w1 = (Raise e, w2) ->
  __init__ rn show pd kw w =
    if is_OSError e then
      match os_makedirs (posixpath.join parent rn) w2 with
      | (Ok _, w3) =>
          (Ok {| report_name := rn; show_title := show; current_number := 1;
                 suptitle_kwargs := dict_update default_suptitle_kwargs kw;
                 dir_name := posixpath.join parent rn |}, w3)
      | (Raise e', w3) => (Raise e', w3)
      end
    else (Raise e, w2).
Proof.
  intros Habs Hrm. rewrite init_run, Habs. cbn zeta. rewrite Hrm. reflexivity.
Qed.

Lemma init_rmtree_failure_witness :
  __init__ "report" true "figures" ∅ Sim.w_locked =
    if is_OSError PermissionError then
      match os_makedirs (posixpath.join "/home/u/figures" "report") Sim.w_locked with
      | (Ok _, w3) =>
          (Ok {| report_name := "report"; show_title := true; current_number := 1;
                 suptitle_kwargs := dict_update default_suptitle_kwargs ∅;
                 dir_name := posixpath.join "/home/u/figures" "report" |}, w3)
      | (Raise e', w3) => (Raise e', w3)
      end
    else (Raise PermissionError, Sim.w_locked).
Proof.
  apply (@init_rmtree_failure Sim.env "report" true "figures" ∅ Sim.w_locked
           "/home/u/figures" Sim.w_locked PermissionError Sim.w_locked).
  - vm_compute. reflexivity.
  - vm_compute. reflexivity.
Defined.

(** ** C3: the counter and a failed write *)

(** C3 fails as stated: when the directory is gone the write raises
    [FileNotFoundError], [figsave] raises it, and the counter is still 1,
    not 2. *)
Lemma figsave_failed_write_keeps_counter :
  fst (figsave (1%nat : Figure) None Sim.st_gone) = Raise FileNotFoundError
  /\ current_number (self Sim.st_gone) = 1%Z
  /\ current_number (self (snd (figsave (1%nat : Figure) None Sim.st_gone))) = 1%Z
  /\ current_number (self (snd (figsave (1%nat : Figure) None Sim.st_gone)))
      <> (current_number (self Sim.st_gone) + 1)%Z.
Proof.
  split; [vm_compute; reflexivity|].
  split; [reflexivity|].
  split; [vm_compute; reflexivity|].
  vm_compute. discriminate.
Qed.

(** C3, amended.  The counter moves only after the write: when
    [fig.savefig] returns, [current_number] is one more after the call
    (also when closing the figure then fails); when [fig.savefig] raises,
    [figsave] raises the same exception and leaves the object as it was, so
    the next save uses the same number again. *)
Theorem figsave_counter_after_write `{env : Env} fig title st st1 c w2 r w3 :
  stamp_title fig title st = (Ok tt, st1) ->
  fig_get_facecolor fig (world st1) = (Ok c, w2) ->
  fig_savefig fig (next_fname (self st)) "tight" c w2 = (r, w3) ->
  match r with
  | Ok _ =>
      current_number (self (snd (figsave fig title st)))
      = (current_number (self st) + 1)%Z
  | Raise e =>
      figsave fig title st = (Raise e, {| self := self st; world := w3 |})
  end.
Proof.
  intros Hstamp Hface Hwrite.
  pose proof (stamp_title_self fig title st) as Hself.
  rewrite Hstamp in Hself. cbn [snd] in Hself.
  rewrite figsave_run, Hstamp, Hface, Hself, Hwrite.
  destruct r as [[]|e]; [|reflexivity].
  destruct (plt_close fig w3) as [[[]|e] w4]; reflexivity.
Qed.

Lemma figsave_counter_after_write_witness :
  figsave (1%nat : Figure) None Sim.st_gone
  = (Raise FileNotFoundError, {| self := self Sim.st_gone; world := Sim.w_gone |}).
Proof.
  apply (@figsave_counter_after_write Sim.env 1%nat None Sim.st_gone Sim.st_gone
           "white" Sim.w_gone (Raise FileNotFoundError) Sim.w_gone).
  - vm_compute. reflexivity.
  - vm_compute. reflexivity.
  - vm_compute. reflexivity.
Defined.

(** ** C5: display and direct invocation *)

(** [figdisp] as [figsave] followed by its two library calls. *)
Lemma figdisp_run `{env : Env} fig title st :
  figdisp fig title st =
    match figsave fig title st with
    | (Raise e, st1) => (Raise e, st1)
    | (Ok fname, st1) =>
        match IPython_Image fname (world st1) with
        | (Raise e, w2) => (Raise e, {| self := self st1; world := w2 |})
        | (Ok image, w2) =>
            match IPython_display image w2 with
            | (shown, w3) => (shown, {| self := self st1; world := w3 |})
            end
        end
    end.
Proof.
  unfold figdisp, ext. unfold_monad.
  destruct (figsave fig title st) as [[fname|e] st1]; [|reflexivity].
  destruct (IPython_Image fname (world st1)) as [[image|e] w2]; [|reflexivity].
  cbn [self world]. destruct (IPython_display image w2); reflexivity.
Qed.

(** C5. [figdisp] first does exactly what [figsave] with the same figure
    and title does, with the same effect on the object and the world (so the
    same file is written under the same name); when that raises so does
    [figdisp], and otherwise it loads the file just named and returns what
    [display] returns.  Calling the object with a figure is [figdisp];
    without one it takes [plt.gcf()] and is [figdisp] on that figure. *)
Theorem figdisp_refines_figsave `{env : Env} fig title st :
  match figsave fig title st with
  | (Raise e, st1) => figdisp fig title st = (Raise e, st1)
  | (Ok fname, st1) =>
      figdisp fig title st =
        match IPython_Image fname (world st1) with
        | (Raise e, w2) => (Raise e, {| self := self st1; world := w2 |})
        | (Ok image, w2) =>
            match IPython_display image w2 with
            | (shown, w3) => (shown, {| self := self st1; world := w3 |})
            end
        end
  end
  /\ __call__ (Some fig) title st = figdisp fig title st
  /\ __call__ None title st =
       match plt_gcf (world st) with
       | (Ok current, w1) => figdisp current title {| self := self st; world := w1 |}
       | (Raise e, w1) => (Raise e, {| self := self st; world := w1 |})
       end.
Proof.
  split; [|split].
  - rewrite figdisp_run. destruct (figsave fig title st) as [[fname|e] st1]; reflexivity.
  - reflexivity.
  - unfold __call__, ext. unfold_monad.
    destruct (plt_gcf (world st)) as [[current|e] w1]; reflexivity.
Qed.

(** In the concrete world the files after [figdisp] are those after the
    bare [figsave], and so is the object: showing the image writes nothing. *)
Lemma sim_figdisp_same_files fig title (st : State Sim.sim_world) :
  Sim.fs (world (snd (figdisp fig title st)))
  = Sim.fs (world (snd (figsave fig title st)))
  /\ self (snd (figdisp fig title st)) = self (snd (figsave fig title st)).
Proof.
  rewrite figdisp_run.
  destruct (figsave fig title st) as [[fname|e] st1]; [|done].
  change (IPython_Image fname (world st1)) with (Sim.Image fname (world st1)).
  unfold Sim.Image.
  destruct (Sim.fs (world st1) !! Sim.resolve (world st1) fname) as [[|img]|]; done.
Qed.

(** ** C6: when the title is stamped *)

Lemma default_suptitle_kwargs_lookup k :
  default_suptitle_kwargs !! k =
    if decide (k = "ha") then Some (VStr "left")
    else if decide (k = "ma") then Some (VStr "left")
    else if decide (k = "x") then Some (VInt 0)
    else if decide (k = "va") then Some (VStr "bottom")
    else None.
Proof.
  unfold default_suptitle_kwargs.
  repeat case_decide; subst; simplify_map_eq; done.
Qed.

Lemma figsave_without_title `{env : Env} fig title st :
  (show_title (self st) = true -> title = None) ->
  figsave fig title st = figsave fig None st.
Proof.
  intros H. rewrite !figsave_run, !stamp_title_run.
  destruct (show_title (self st)); [|reflexivity].
  rewrite H by done. reflexivity.
Qed.

(** C6. The object keeps the [show_title] it was made with and the
    title options [ha=left, ma=left, x=0, va=bottom] with the caller's
    options put over them.  On every later save, with [show_title] true and a
    title given the save is [fig.suptitle(title, **options)] followed by the
    save without a title; in every other case it is the save without a
    title, and that one does not depend on what [fig.suptitle] does. *)
Theorem title_stamped_iff `{env : Env} rn show pd kw w h w' :
  __init__ rn show pd kw w = (Ok h, w') ->
  show_title h = show
  /\ (forall k, suptitle_kwargs h !! k =
                  match kw !! k with
                  | Some v => Some v
                  | None => default_suptitle_kwargs !! k
                  end)
  /\ forall names h1 fig title w1,
       saves h names h1 ->
       match show, title with
       | true, Some t =>
           figsave fig title {| self := h1; world := w1 |} =
             match fig_suptitle fig t (suptitle_kwargs h) w1 with
             | (Ok _, w2) => figsave fig None {| self := h1; world := w2 |}
             | (Raise e, w2) => (Raise e, {| self := h1; world := w2 |})
             end
       | _, _ =>
           figsave fig title {| self := h1; world := w1 |}
           = figsave fig None {| self := h1; world := w1 |}
       end
       /\ forall f,
            @figsave (with_suptitle env f) fig None {| self := h1; world := w1 |}
            = figsave fig None {| self := h1; world := w1 |}.
Proof.
  intros Hinit. apply init_Ok in Hinit as (parent & wa & _ & ->). cbn.
  split; [reflexivity|]. split.
  { intros k. unfold dict_update. rewrite lookup_union.
    destruct (kw !! k), (default_suptitle_kwargs !! k); reflexivity. }
  intros names h1 fig title w1 Hs.
  apply saves_inv in Hs as (_ & _ & _ & Hshow & Hkw & _). cbn in Hshow, Hkw.
  split.
  - destruct show, title as [t|];
      try (apply figsave_without_title; cbn; congruence).
    rewrite (figsave_run fig (Some t)), stamp_title_run. cbn [self world].
    rewrite Hshow, Hkw.
    destruct (fig_suptitle _ _ _ _) as [[[]|e] w2]; [|reflexivity].
    rewrite figsave_run, stamp_title_run. cbn [self world].
    rewrite Hshow. reflexivity.
  - intros f.
    rewrite (@figsave_run env), (@figsave_run (with_suptitle env f)).
    rewrite (@stamp_title_run env), (@stamp_title_run (with_suptitle env f)).
    cbn [self world]. destruct (show_title h1); reflexivity.
Qed.

Lemma title_stamped_iff_witness :
  show_title Sim.h1 = true
  /\ suptitle_kwargs Sim.h1 !! "x" = Some (VInt 0)
  /\ figsave (1%nat : Figure) (Some "Title") Sim.st1 =
       match fig_suptitle (1%nat : Figure) "Title" (suptitle_kwargs Sim.h1) Sim.w1 with
       | (Ok _, w2) => figsave (1%nat : Figure) None {| self := Sim.h1; world := w2 |}
       | (Raise e, w2) => (Raise e, {| self := Sim.h1; world := w2 |})
       end.
Proof.
  assert (Hinit : __init__ "report" true "figures" ∅ Sim.w0 = (Ok Sim.h1, Sim.w1))
    by (vm_compute; reflexivity).
  destruct (@title_stamped_iff Sim.env "report" true "figures" ∅ Sim.w0 Sim.h1 Sim.w1
              Hinit) as (Hshow & Hkw & Hsave).
  split; [exact Hshow|]. split; [rewrite Hkw; reflexivity|].
  destruct (Hsave [] Sim.h1 1%nat (Some "Title") Sim.w1 (saves_nil Sim.h1)) as [H _].
  exact H.
Defined.

(** ** C8: the path a save returns *)

Module PathFacts.
Import Fmt posixpath.

Lemma string_length_app (s t : string) :
  String.length (s ++ t) = String.length s + String.length t.
Proof. induction s as [|c s IH]; [reflexivity|]. cbn. by rewrite <- IH. Qed.

Lemma replicate_char_length n c : String.length (Str.replicate_char n c) = n.
Proof. induction n as [|n IH]; [reflexivity|]. cbn. by rewrite IH. Qed.

Lemma zero_pad_length w s : w <= String.length (zero_pad w s).
Proof.
  unfold zero_pad. rewrite string_length_app, replicate_char_length. lia.
Qed.

Lemma zero_pad_long w s : w <= String.length s -> zero_pad w s = s.
Proof.
  intros H. unfold zero_pad. replace (w - String.length s) with 0 by lia.
  reflexivity.
Qed.

Lemma digits_go_length fuel : forall n acc k,
  (n < 2 ^ N.of_nat fuel)%N -> (10 ^ N.of_nat k <= n)%N ->
  k + 1 + String.length acc <= String.length (digits_go fuel n acc).
Proof.
  induction fuel as [|fuel IH]; intros n acc k Hn Hk.
  - cbn in Hn. pose proof (N.pow_nonzero 10 (N.of_nat k)). lia.
  - cbn [digits_go]. destruct (N.ltb_spec n 10) as [Hlt|Hge].
    + destruct k as [|k]; [cbn; lia|].
      rewrite Nat2N.inj_succ, N.pow_succ_r' in Hk.
      pose proof (N.pow_nonzero 10 (N.of_nat k)). lia.
    + assert (Hdiv : (n / 10 < 2 ^ N.of_nat fuel)%N).
      { rewrite Nat2N.inj_succ, N.pow_succ_r' in Hn.
        apply N.Div0.div_lt_upper_bound. lia. }
      destruct k as [|k].
      * pose proof (IH (n / 10)%N (String (digit_char (n mod 10)) acc) 0 Hdiv) as H.
        cbn in H. cbn.
        assert (1 <= n / 10)%N by (apply N.div_le_lower_bound; lia). lia.
      * pose proof (IH (n / 10)%N (String (digit_char (n mod 10)) acc) k Hdiv) as H.
        cbn [String.length] in H.
        rewrite Nat2N.inj_succ, N.pow_succ_r' in Hk.
        assert (10 ^ N.of_nat k <= n / 10)%N by (apply N.div_le_lower_bound; lia).
        lia.
Qed.

Lemma str_N_length n k :
  (10 ^ N.of_nat k <= n)%N -> k + 1 <= String.length (str_N n).
Proof.
  intros H. pose proof (digits_go_length _ n "" k (FmtFacts.log2_fuel n) H) as L.
  cbn [String.length] in L. unfold str_N. lia.
Qed.

(** From 100 on the number is printed as it is, with all its digits. *)
Lemma percent_03d_wide n : (100 <= n)%Z -> percent_0d 3 n = str_N (Z.to_N n).
Proof.
  intros H. destruct n as [|p|p]; try lia. unfold percent_0d.
  apply zero_pad_long. apply (str_N_length _ 2). cbn. lia.
Qed.

Lemma percent_03d_length n : (0 <= n)%Z -> 3 <= String.length (percent_0d 3 n).
Proof.
  intros H. destruct n as [|p|p]; try lia; apply zero_pad_length.
Qed.

Lemma isabs_app a b : isabs a = true -> isabs (a ++ b) = true.
Proof. destruct a; [discriminate|]. exact id. Qed.

Lemma isabs_join a b : isabs a = true -> isabs (join a b) = true.
Proof.
  intros Ha. unfold join. destruct (Str.startswith_char sep b) eqn:Hb; [exact Hb|].
  destruct (_ || _)%bool; by apply isabs_app.
Qed.

Lemma isabs_replicate n s : 0 < n -> isabs (Str.replicate_char n sep ++ s) = true.
Proof. destruct n; [lia|]. reflexivity. Qed.

Lemma initial_slashes_pos p : isabs p = true -> 0 < initial_slashes p.
Proof.
  unfold isabs, initial_slashes, Str.startswith_char.
  destruct p as [|c p]; [discriminate|]. intros Hc%Ascii.eqb_eq. subst c.
  change sep with "/"%char.
  destruct p as [|c1 p]; [lia|].
  destruct (Ascii.eqb_spec c1 "/") as [->|Hc1].
  - destruct p as [|c2 p]; [lia|].
    destruct (Ascii.eqb_spec c2 "/") as [->|Hc2]; [lia|].
    destruct c2 as [[] [] [] [] [] [] [] []]; try lia; congruence.
  - destruct c1 as [[] [] [] [] [] [] [] []]; try lia; congruence.
Qed.

Lemma isabs_normpath p : isabs p = true -> isabs (normpath p) = true.
Proof.
  intros Hp. unfold normpath.
  destruct (String.eqb_spec p "") as [->|_]; [discriminate|].
  cbn zeta. pose proof (initial_slashes_pos p Hp) as Hn.
  pose proof (isabs_replicate (initial_slashes p)
                (Str.join "/" (normpath_loop (initial_slashes p) (Str.split sep p) []))
                Hn) as Habs.
  destruct (String.eqb_spec (Str.replicate_char (initial_slashes p) sep ++
              Str.join "/" (normpath_loop (initial_slashes p) (Str.split sep p) [])) "")
    as [E|_]; [|exact Habs].
  rewrite E in Habs. discriminate.
Qed.

End PathFacts.

Lemma endswith_char_app c a b :
  b <> "" -> Str.endswith_char c (a ++ b) = Str.endswith_char c b.
Proof.
  intros Hb. induction a as [|x a IH]; [reflexivity|].
  change (String x a ++ b) with (String x (a ++ b)). cbn [Str.endswith_char].
  destruct (a ++ b) eqn:E; [|exact IH].
  exfalso. destruct a; [apply Hb; exact E|discriminate E].
Qed.

Lemma abspath_isabs `{env : Env} pd w parent w1 :
  (forall cwd w', os_getcwd w = (Ok cwd, w') -> posixpath.isabs cwd = true) ->
  os_path_abspath pd w = (Ok parent, w1) ->
  posixpath.isabs parent = true.
Proof.
  intros Hcwd. unfold os_path_abspath. unfold_monad.
  destruct (posixpath.isabs pd) eqn:Hpd.
  - intros [= <- _]. by apply PathFacts.isabs_normpath.
  - destruct (os_getcwd w) as [[cwd|e] w'] eqn:E; [|discriminate].
    intros [= <- _]. apply PathFacts.isabs_normpath, PathFacts.isabs_join. eauto.
Qed.

(** A save that returns has written under the name it returns. *)
Lemma figsave_Ok_written `{env : Env} fig title st name st' :
  figsave fig title st = (Ok name, st') ->
  exists c wb wc, fig_savefig fig name "tight" c wb = (Ok tt, wc).
Proof.
  intros H. pose proof (figsave_Ok _ _ _ _ _ H) as [-> _].
  rewrite figsave_run in H. pose proof (stamp_title_self fig title st) as Hs.
  destruct (stamp_title fig title st) as [[[]|e] st1]; [|discriminate].
  cbn [snd] in Hs. rewrite Hs in H.
  destruct (fig_get_facecolor _ _) as [[c|e] w2]; [|discriminate].
  destruct (fig_savefig _ _ _ _ _) as [[[]|e] w3] eqn:E; [|discriminate].
  eauto.
Qed.

(** C8. After construction and any number of saves, a save that returns
    gives the name it has written to: the join of the absolute parent
    directory, the report name and figure_NNN.png.  The name is absolute; NNN
    is the counter, 1 + the number of earlier saves, in decimal with zeros
    in front up to three characters, it reads back as the counter, and from
    1000 on it is the plain decimal numeral of at least four digits.  For a
    report name that is a plain path segment the name is literally
    parent/report_name/figure_NNN.png. *)
Theorem figsave_returns_path `{env : Env} rn show pd kw w h w' names h1 fig title w1
    name st' :
  (forall cwd w0, os_getcwd w = (Ok cwd, w0) -> posixpath.isabs cwd = true) ->
  __init__ rn show pd kw w = (Ok h, w') ->
  saves h names h1 ->
  figsave fig title {| self := h1; world := w1 |} = (Ok name, st') ->
  let n := (1 + Z.of_nat (length names))%Z in
  let NNN := Fmt.percent_0d 3 n in
  exists parent wa,
    os_path_abspath pd w = (Ok parent, wa)
    /\ posixpath.isabs parent = true
    /\ current_number h1 = n
    /\ name = posixpath.join (posixpath.join parent rn) ("figure_" ++ NNN ++ ".png")
    /\ posixpath.isabs name = true
    /\ (exists c wb wc, fig_savefig fig name "tight" c wb = (Ok tt, wc))
    /\ NNN = Fmt.zero_pad 3 (Fmt.str_N (Z.to_N n))
    /\ 3 <= String.length NNN
    /\ Fmt.parse NNN = Z.to_N n
    /\ ((1000 <= n)%Z -> NNN = Fmt.str_N (Z.to_N n) /\ 4 <= String.length NNN)
    /\ (Str.startswith_char posixpath.sep rn = false -> rn <> "" ->
        Str.endswith_char posixpath.sep rn = false ->
        Str.endswith_char posixpath.sep parent = false ->
        name = parent ++ "/" ++ rn ++ "/" ++ "figure_" ++ NNN ++ ".png").
Proof.
  intros Hcwd Hinit Hsaves Hsave n NNN.
  apply init_Ok in Hinit as (parent & wa & Habs & ->).
  pose proof (abspath_isabs _ _ _ _ Hcwd Habs) as Hparent.
  apply saves_inv in Hsaves as (_ & Hcount & Hdir & _). cbn in Hcount, Hdir.
  pose proof (figsave_Ok_written _ _ _ _ _ Hsave) as Hwritten.
  apply figsave_Ok in Hsave as [Hname _]. cbn [self] in Hname.
  unfold next_fname in Hname. rewrite Hdir, Hcount in Hname.
  fold n in Hname. unfold figure_basename in Hname. fold NNN in Hname.
  assert (Hn : (1 <= n)%Z) by (unfold n; lia).
  exists parent, wa. repeat split; try done.
  - subst name. by apply PathFacts.isabs_join, PathFacts.isabs_join.
  - unfold NNN, Fmt.percent_0d. destruct n; try lia; reflexivity.
  - apply PathFacts.percent_03d_length. lia.
  - apply FmtFacts.parse_percent_0d. lia.
  - apply PathFacts.percent_03d_wide. lia.
  - unfold NNN. rewrite PathFacts.percent_03d_wide by lia.
    apply (PathFacts.str_N_length _ 3). cbn. lia.
  - intros Hrel Hne Hend Hpend. subst name. unfold posixpath.join at 2.
    rewrite Hrel, Hpend.
    destruct (String.eqb_spec parent "") as [->|_]; [discriminate|]. cbn [orb].
    unfold posixpath.join. cbn [Str.startswith_char Ascii.eqb Bool.eqb andb].
    rewrite !endswith_char_app, Hend by (destruct rn; done).
    destruct (String.eqb_spec (parent ++ "/" ++ rn) "") as [E|_].
    { destruct parent; discriminate. }
    cbn [orb]. rewrite <- !string_app_assoc. reflexivity.
Qed.

Lemma figsave_returns_path_witness :
  let name := "/home/u/figures/report/figure_002.png" in
  let NNN := Fmt.percent_0d 3 2 in
  exists parent wa,
    os_path_abspath "figures" Sim.w0 = (Ok parent, wa)
    /\ posixpath.isabs parent = true
    /\ current_number (self Sim.st2) = 2%Z
    /\ name = posixpath.join (posixpath.join parent "report") ("figure_" ++ NNN ++ ".png")
    /\ posixpath.isabs name = true
    /\ (exists c wb wc, fig_savefig (1%nat : Figure) name "tight" c wb = (Ok tt, wc))
    /\ NNN = Fmt.zero_pad 3 (Fmt.str_N 2)
    /\ 3 <= String.length NNN
    /\ Fmt.parse NNN = 2%N
    /\ ((1000 <= 2)%Z -> NNN = Fmt.str_N 2 /\ 4 <= String.length NNN)
    /\ (Str.startswith_char posixpath.sep "report" = false -> "report" <> "" ->
        Str.endswith_char posixpath.sep "report" = false ->
        Str.endswith_char posixpath.sep parent = false ->
        name = parent ++ "/" ++ "report" ++ "/" ++ "figure_" ++ NNN ++ ".png").
Proof.
  apply (@figsave_returns_path Sim.env "report" true "figures" ∅ Sim.w0 Sim.h1 Sim.w1
           ["/home/u/figures/report/figure_001.png"] (self Sim.st2) 1%nat None
           (world Sim.st2) "/home/u/figures/report/figure_002.png" Sim.st3).
  - intros cwd w0 [= <- _]. reflexivity.
  - vm_compute. reflexivity.
  - apply (@saves_cons Sim.env Sim.h1 1%nat (Some "Title") Sim.w1 _
             (self Sim.st2) (world Sim.st2)).
    + vm_compute. reflexivity.
    + apply saves_nil.
  - vm_compute. reflexivity.
Defined.

(** ** C4 and C7: the figure columns of [html_from_dataframe] *)

Lemma dict_get_set {V} k (v : V) d c :
  dict_get c (dict_set k v d) = if decide (k = c) then Some v else dict_get c d.
Proof.
  induction d as [|[k' v'] d IH]; cbn.
  - reflexivity.
  - destruct (decide (k' = k)) as [->|Hk]; cbn.
    + destruct (decide (k = c)); reflexivity.
    + rewrite IH. destruct (decide (k' = c)) as [->|]; [|reflexivity].
      destruct (decide (k = c)); congruence.
Qed.

Lemma dict_get_fold {V} (v : V) keys : forall d c,
  dict_get c (fold_left (fun d k => dict_set k v d) keys d)
  = if decide (c ∈ keys) then Some v else dict_get c d.
Proof.
  induction keys as [|k keys IH]; intros d c; cbn.
  - destruct (decide (c ∈ [])) as [H|_]; [|reflexivity]. by apply elem_of_nil in H.
  - rewrite IH, dict_get_set.
    destruct (decide (c ∈ keys)) as [Hin|Hin].
    + rewrite decide_True by (by right). reflexivity.
    + destruct (decide (k = c)) as [->|Hk].
      * rewrite decide_True by (by left). reflexivity.
      * rewrite decide_False; [reflexivity|].
        intros [->|?]%elem_of_cons; congruence.
Qed.

(** The keys of [{c: v for c in keys}] are the members of [keys]. *)
Lemma dict_from_keys_get {V} (v : V) keys c :
  dict_get c (dict_from_keys keys v) = if decide (c ∈ keys) then Some v else None.
Proof. unfold dict_from_keys. rewrite dict_get_fold. reflexivity. Qed.

(** Whenever [c[1] == 'fig'] has a value, it says whether the second level
    of the label is ['fig']; for a name of a flat index, whose [c[1]] is one
    character, it is false. *)
Lemma second_is_fig_Ok c b :
  second_is_fig c = Ok b -> b = bool_decide (second_level c = Some (SStr "fig")).
Proof.
  unfold second_is_fig, second_level. destruct c as [[s|z]|xs].
  - destruct (String.get 1 s) as [ch|]; [|discriminate]. intros [= <-].
    rewrite bool_decide_eq_false_2 by discriminate.
    cbn. destruct (Ascii.eqb ch "f"); reflexivity.
  - discriminate.
  - destruct (xs !! 1%nat) as [x|]; [|discriminate]. intros [= <-].
    apply bool_decide_ext. split; congruence.
Qed.

Lemma second_is_fig_two_level c :
  is_two_level c = true -> exists b, second_is_fig c = Ok b.
Proof.
  unfold is_two_level, second_level, second_is_fig.
  destruct c as [x|xs]; [discriminate|].
  destruct (xs !! 1%nat) as [x|]; [eauto|discriminate].
Qed.

Lemma infer_two_level cols :
  Forall (fun c => is_two_level c = true) cols ->
  exists selected, infer_figure_columns cols = Ok selected.
Proof.
  induction 1 as [|c cols Hc _ [sel IH]]; [by exists []|].
  destruct (second_is_fig_two_level c Hc) as [b Hb].
  cbn [infer_figure_columns]. rewrite Hb, IH. eauto.
Qed.

Lemma infer_Ok cols : forall selected,
  infer_figure_columns cols = Ok selected ->
  selected = filter (fun c => second_level c = Some (SStr "fig")) cols.
Proof.
  induction cols as [|c cols IH]; intros selected; cbn [infer_figure_columns].
  - by intros [= <-].
  - destruct (second_is_fig c) as [b|e] eqn:Hb; [|discriminate].
    destruct (infer_figure_columns cols) as [sel|e]; [|discriminate].
    intros [= <-]. apply second_is_fig_Ok in Hb. rewrite filter_cons, <- (IH sel eq_refl).
    subst b. destruct (decide (second_level c = Some (SStr "fig"))) as [E|E].
    + by rewrite bool_decide_eq_true_2.
    + by rewrite bool_decide_eq_false_2.
Qed.

(** C4. With [figure_columns='infer'] the comprehension over the columns
    has a value for every table with a column index of two (or more) levels,
    and whenever it has a value [to_html] is called with formatters whose
    keys are exactly the columns with second-level label ['fig'], each with
    [cell_figure_mapping]; every other column has no formatter and is left
    to the default rendering. *)
Theorem html_infer_selects_fig_columns `{env : Env} index_contains to_html
    fig_savefig_bytes b64encode (df : DataFrame) :
  (Forall (fun c => is_two_level c = true) (columns df) ->
   exists selected, infer_figure_columns (columns df) = Ok selected)
  /\ forall selected,
       infer_figure_columns (columns df) = Ok selected ->
       exists formatters,
         html_from_dataframe index_contains to_html fig_savefig_bytes b64encode df FCInfer
         = to_html df false formatters 0%Z
         /\ forall c,
              dict_get c formatters =
                if decide (c ∈ columns df /\ second_level c = Some (SStr "fig"))
                then Some (cell_figure_mapping fig_savefig_bytes b64encode)
                else None.
Proof.
  split; [apply infer_two_level|].
  intros selected Hsel.
  exists (dict_from_keys selected (cell_figure_mapping fig_savefig_bytes b64encode)).
  split.
  - unfold html_from_dataframe, select_figure_columns. rewrite Hsel. reflexivity.
  - intros c. rewrite dict_from_keys_get, (infer_Ok _ _ Hsel).
    destruct (decide (c ∈ columns df /\ _)) as [[Hin Hfig]|Hno].
    + rewrite decide_True; [reflexivity|]. by apply list_elem_of_filter.
    + rewrite decide_False; [reflexivity|].
      intros [? ?]%list_elem_of_filter. by apply Hno.
Qed.

Lemma html_infer_selects_fig_columns_witness :
  (exists selected, infer_figure_columns (columns Sim.df_reports) = Ok selected)
  /\ exists formatters,
       Sim.html Sim.df_reports FCInfer
       = Sim.to_html Sim.df_reports false formatters 0%Z
       /\ forall c,
            dict_get c formatters =
              if decide (c ∈ columns Sim.df_reports /\ second_level c = Some (SStr "fig"))
              then Some (cell_figure_mapping Sim.savefig_bytes Sim.b64encode)
              else None.
Proof.
  destruct (@html_infer_selects_fig_columns Sim.env Sim.index_contains Sim.to_html
              Sim.savefig_bytes Sim.b64encode Sim.df_reports) as [Hvalue Hkeys].
  split.
  - apply Hvalue. repeat constructor.
  - apply (Hkeys [LTuple [SStr "model"; SStr "fig"]]). reflexivity.
Defined.

Lemma assert_all_in_missing index_contains cols requested c :
  c ∈ requested -> index_contains cols c = false ->
  assert_all_in index_contains cols requested = Raise AssertionError.
Proof.
  intros Hin Hc. induction requested as [|r requested IH]; [by apply elem_of_nil in Hin|].
  cbn. destruct (index_contains cols r) eqn:Hr; [|reflexivity].
  apply IH. apply elem_of_cons in Hin as [->|?]; [congruence|done].
Qed.

(** C7. With an explicit list of figure columns of which one is not among
    the table's columns, [html_from_dataframe] raises [AssertionError] and
    leaves the world as it was, whatever [to_html] would do: nothing is
    rendered and no string is returned. *)
Theorem html_missing_column_raises `{env : Env} index_contains to_html
    fig_savefig_bytes b64encode (df : DataFrame) requested c w :
  c ∈ requested ->
  index_contains (columns df) c = false ->
  html_from_dataframe index_contains to_html fig_savefig_bytes b64encode df
    (FCList requested) w
  = (Raise AssertionError, w).
Proof.
  intros Hin Hc. unfold html_from_dataframe, select_figure_columns.
  rewrite (assert_all_in_missing _ _ _ _ Hin Hc). reflexivity.
Qed.

Lemma html_missing_column_raises_witness :
  Sim.html Sim.df_reports
    (FCList [LTuple [SStr "model"; SStr "fig"]; LTuple [SStr "model"; SStr "plot"]])
    Sim.w1
  = (Raise AssertionError, Sim.w1).
Proof.
  apply (@html_missing_column_raises Sim.env Sim.index_contains Sim.to_html
           Sim.savefig_bytes Sim.b64encode Sim.df_reports _
           (LTuple [SStr "model"; SStr "plot"])).
  - apply elem_of_cons. right. apply elem_of_cons. left. reflexivity.
  - vm_compute. reflexivity.
Defined.

(** ** C9: the residuals that are plotted *)

Section ResidualFacts.
Context {Num : Type}.
Variable sub : Num -> Num -> Num.
Variable ltb : Num -> Num -> bool.
Variable np_percentile : list Num -> list Z -> list Num.
Variable np_mean : list Num -> Num.
Variable np_round : list Num -> Z -> list Num.
Variable get_xlim get_ylim : Axes Num -> Num * Num.

Lemma np_subtract_same_length (a b : list Num) :
  length a = length b -> np_subtract sub a b = Ok (zip_with sub a b).
Proof. intros H. unfold np_subtract. by rewrite H, Nat.eqb_refl. Qed.

Lemma py_min_nonempty (l : list Num) : l <> [] -> exists m, py_min ltb l = Ok m.
Proof. destruct l; [done|]. intros _. eexists. reflexivity. Qed.

Lemma py_max_nonempty (l : list Num) : l <> [] -> exists m, py_max ltb l = Ok m.
Proof. destruct l; [done|]. intros _. eexists. reflexivity. Qed.

Lemma scatter_points_app (a b : Axes Num) :
  scatter_points (a ++ b)%list = (scatter_points a ++ scatter_points b)%list.
Proof. apply flat_map_app. Qed.

Lemma plot_residuals_points observations predictions ax ylabel :
  length observations = length predictions ->
  exists a,
    plot_residuals sub get_xlim get_ylim observations predictions ax ylabel = Ok a
    /\ scatter_points a
       = (scatter_points (axes_or_new ax)
          ++ zip predictions (zip_with sub observations predictions))%list.
Proof.
  intros Hlen. unfold plot_residuals.
  rewrite (np_subtract_same_length _ _ Hlen). cbn [res_bind].
  eexists. split; [reflexivity|].
  destruct ylabel; rewrite !scatter_points_app; cbn [scatter_points flat_map];
    rewrite !app_nil_r; reflexivity.
Qed.

Lemma residual_at i (observations predictions : list Num) o p :
  observations !! i = Some o -> predictions !! i = Some p ->
  zip predictions (zip_with sub observations predictions) !! i = Some (p, sub o p).
Proof.
  intros Ho Hp. unfold zip. apply lookup_zip_with_Some.
  exists p, (sub o p). split; [reflexivity|]. split; [exact Hp|].
  apply lookup_zip_with_Some. eauto.
Qed.

End ResidualFacts.

(** C9. For observations and predictions of the same length,
    [plot_residuals] draws one point per index, with the prediction as x and
    observation minus prediction as y; [plot_observed_vs_predicted] draws
    the same points on its residual axes and gives the same differences, in
    the same order, to the density estimate, and it returns whenever the
    arrays are not empty. *)
Theorem residuals_are_observed_minus_predicted {Num : Type} (sub : Num -> Num -> Num)
    ltb np_percentile np_mean np_round get_xlim get_ylim
    (observations predictions : list Num) ylabel fig :
  length observations = length predictions ->
  let residuals := zip_with sub observations predictions in
  (forall i o p, observations !! i = Some o -> predictions !! i = Some p ->
     residuals !! i = Some (sub o p))
  /\ (exists a,
        plot_residuals sub get_xlim get_ylim observations predictions None ylabel = Ok a
        /\ scatter_points a = zip predictions residuals)
  /\ (forall panels,
        plot_observed_vs_predicted sub ltb np_percentile np_mean np_round
          get_xlim get_ylim observations predictions fig = Ok panels ->
        scatter_points (drawn_on (ax_residuals panels)) = zip predictions residuals
        /\ density_inputs (drawn_on (ax_residual_kde panels)) = [residuals])
  /\ (observations <> [] ->
      exists panels,
        plot_observed_vs_predicted sub ltb np_percentile np_mean np_round
          get_xlim get_ylim observations predictions fig = Ok panels).
Proof.
  intros Hlen residuals.
  assert (Hpred : observations <> [] -> predictions <> []).
  { destruct observations, predictions; done. }
  split; [|split; [|split]].
  - intros i o p Ho Hp. apply lookup_zip_with_Some. eauto.
  - destruct (plot_residuals_points sub get_xlim get_ylim _ _ None ylabel Hlen)
      as (a & Ha & Hpts). eauto.
  - intros panels. unfold plot_observed_vs_predicted.
    destruct (_actual_plot_observed_vs_predicted _ _ _ _ _) as [a1|e]; [|discriminate].
    destruct (plot_residuals_points sub get_xlim get_ylim _ _ (Some []) true Hlen)
      as (a2 & Ha2 & Hpts).
    cbn [res_bind]. rewrite Ha2, (np_subtract_same_length _ _ _ Hlen). cbn [res_bind].
    intros [= <-]. cbn [ax_residuals ax_residual_kde drawn_on]. split; [exact Hpts|].
    unfold plot_residual_kde. destruct (get_xlim _) as [lo hi].
    reflexivity.
  - intros Hne. unfold plot_observed_vs_predicted, _actual_plot_observed_vs_predicted.
    destruct (py_min_nonempty ltb _ Hne) as [mo ->].
    destruct (py_min_nonempty ltb _ (Hpred Hne)) as [mp ->].
    destruct (py_max_nonempty ltb _ Hne) as [xo ->].
    destruct (py_max_nonempty ltb _ (Hpred Hne)) as [xp ->].
    destruct (plot_residuals_points sub get_xlim get_ylim _ _ (Some []) true Hlen)
      as (a2 & Ha2 & _).
    cbn [res_bind py_min py_max]. rewrite Ha2, (np_subtract_same_length _ _ _ Hlen).
    cbn [res_bind]. eauto.
Qed.

Lemma residuals_are_observed_minus_predicted_witness :
  let observations := IntPlots.observations in
  let predictions := IntPlots.predictions in
  let residuals := zip_with Z.sub observations predictions in
  (forall i o p, observations !! i = Some o -> predictions !! i = Some p ->
     residuals !! i = Some (Z.sub o p))
  /\ (exists a,
        plot_residuals Z.sub IntPlots.lim IntPlots.lim
          observations predictions None true = Ok a
        /\ scatter_points a = zip predictions residuals)
  /\ (forall panels,
        plot_observed_vs_predicted Z.sub Z.ltb IntPlots.percentile
          IntPlots.mean IntPlots.round IntPlots.lim IntPlots.lim
          observations predictions None = Ok panels ->
        scatter_points (drawn_on (ax_residuals panels)) = zip predictions residuals
        /\ density_inputs (drawn_on (ax_residual_kde panels)) = [residuals])
  /\ (observations <> [] ->
      exists panels,
        plot_observed_vs_predicted Z.sub Z.ltb IntPlots.percentile
          IntPlots.mean IntPlots.round IntPlots.lim IntPlots.lim
          observations predictions None = Ok panels).
Proof.
  apply (residuals_are_observed_minus_predicted Z.sub Z.ltb
           IntPlots.percentile IntPlots.mean IntPlots.round
           IntPlots.lim IntPlots.lim
           IntPlots.observations IntPlots.predictions true None).
  reflexivity.
Defined.

Example residuals_of_integers :
  zip_with Z.sub IntPlots.observations IntPlots.predictions = [5; -5; 0]%Z.
Proof. reflexivity. Qed.

(** ** C10: an empty report name *)

Module SimFacts.
Import Sim.

Lemma string_app_empty_r (s : string) : s ++ "" = s.
Proof.
  induction s as [|c s IH]; [reflexivity|].
  change (String c (s ++ "") = String c s). by rewrite IH.
Qed.

Lemma split_nonempty sep s : Str.split sep s <> [].
Proof.
  destruct s as [|c s]; cbn; [done|].
  destruct (Ascii.eqb c sep); [done|]. destruct (Str.split sep s); done.
Qed.

Lemma split_app_sep sep s :
  Str.split sep (s ++ String sep "") = (Str.split sep s ++ [""])%list.
Proof.
  induction s as [|c s IH].
  - change ("" ++ String sep "") with (String sep "").
    cbn [Str.split]. rewrite Ascii.eqb_refl. reflexivity.
  - change (String c s ++ String sep "") with (String c (s ++ String sep "")).
    cbn [Str.split]. rewrite IH.
    destruct (Ascii.eqb c sep); [reflexivity|].
    pose proof (split_nonempty sep s).
    destruct (Str.split sep s); [done|reflexivity].
Qed.

Lemma normpath_loop_app_empty n comps : forall acc,
  posixpath.normpath_loop n (comps ++ [""])%list acc
  = posixpath.normpath_loop n comps acc.
Proof.
  induction comps as [|c comps IH]; intros acc; [reflexivity|].
  cbn [app posixpath.normpath_loop].
  destruct (_ || _)%bool; [apply IH|].
  destruct (_ || _)%bool; [apply IH|].
  destruct acc; apply IH.
Qed.

Lemma isabs_app_nonempty a b : a <> "" -> posixpath.isabs (a ++ b) = posixpath.isabs a.
Proof. destruct a; [done|reflexivity]. Qed.

Lemma join_app_sep cwd a :
  a <> "" -> posixpath.isabs a = false ->
  posixpath.join cwd (a ++ "/") = posixpath.join cwd a ++ "/".
Proof.
  intros Ha Habs. unfold posixpath.join.
  fold (posixpath.isabs (a ++ "/")). fold (posixpath.isabs a).
  rewrite (isabs_app_nonempty a "/" Ha), Habs.
  destruct (_ || _)%bool; by rewrite ?string_app_assoc.
Qed.

(** A trailing separator does not change what a path names. *)
Lemma resolve_trailing_sep w a : a <> "" -> resolve w (a ++ "/") = resolve w a.
Proof.
  intros Ha. unfold resolve. rewrite (isabs_app_nonempty a "/" Ha).
  destruct (posixpath.isabs a) eqn:Habs; rewrite ?(join_app_sep _ _ Ha Habs);
    change "/" with (String posixpath.sep ""); rewrite split_app_sep;
    apply normpath_loop_app_empty.
Qed.

(** With an empty report name the directory of the object is the parent
    directory. *)
Lemma resolve_join_empty w a : resolve w (posixpath.join a "") = resolve w a.
Proof.
  unfold posixpath.join. cbn [Str.startswith_char].
  destruct (String.eqb_spec a "") as [->|Ha]; [reflexivity|]. cbn [orb].
  destruct (Str.endswith_char posixpath.sep a).
  - by rewrite string_app_empty_r.
  - change ("/" ++ "") with "/". by apply resolve_trailing_sep.
Qed.

Lemma parent_snoc (l : path) x : parent (l ++ [x])%list = l.
Proof.
  unfold parent. rewrite length_app. cbn.
  replace (length l + 1 - 1) with (length l) by lia.
  by rewrite take_app_length.
Qed.

(** In a well-formed file system nothing lies below a path that does not
    exist. *)
Lemma wf_absent_below w r q :
  wf w -> fs w !! r = None -> r `prefix_of` q -> fs w !! q = None.
Proof.
  intros Hwf Hr [k ->]. induction k as [|x k IH] using rev_ind.
  - by rewrite app_nil_r.
  - destruct (fs w !! (r ++ k ++ [x])%list) eqn:E; [|reflexivity].
    assert (Hdom : (r ++ k ++ [x])%list ∈ dom (fs w)) by (apply elem_of_dom; eauto).
    destruct (Hwf _ Hdom) as [Hnil|[nd Hn]].
    + destruct r, k; discriminate.
    + rewrite app_assoc, parent_snoc in Hn.
      pose proof (eq_trans (eq_sym IH) Hn). discriminate.
Qed.

Lemma mkdir_Ok r w w' :
  mkdir r w = (Ok tt, w') ->
  fs w !! r = None /\ w' = set_fs (<[r := Dir]> (fs w)) w.
Proof.
  unfold mkdir. destruct (fs w !! r); [discriminate|].
  destruct r; [discriminate|].
  destruct (fs w !! parent _) as [[|img]|]; try discriminate.
  destruct (decide _); [discriminate|]. intros [= <-]. done.
Qed.

(** What a successful [makedirs] has done: the target did not exist, it is
    a directory now, and only entries on the way to it have changed. *)
Lemma makedirs_from_Ok todo : forall done w w',
  makedirs_from done todo w = (Ok tt, w') ->
  fs w !! (done ++ todo)%list = None
  /\ fs w' !! (done ++ todo)%list = Some Dir
  /\ (forall q, ¬ q `prefix_of` (done ++ todo)%list -> fs w' !! q = fs w !! q).
Proof.
  induction todo as [|c rest IH]; intros done w w' H.
  - cbn in H. apply mkdir_Ok in H as [Hnone ->]. rewrite app_nil_r. cbn.
    split; [exact Hnone|]. split; [apply lookup_insert_eq|].
    intros q Hq. apply lookup_insert_ne. intros <-. by apply Hq.
  - destruct rest as [|c' rest'].
    + cbn in H. apply mkdir_Ok in H as [Hnone ->]. cbn.
      split; [exact Hnone|]. split; [apply lookup_insert_eq|].
      intros q Hq. apply lookup_insert_ne. intros <-. by apply Hq.
    + cbn [makedirs_from] in H. unfold mbind, M_bind, bind in H.
      assert (Hneq : (done ++ [c])%list <> (done ++ c :: c' :: rest')%list).
      { intros E. apply app_inv_head in E. discriminate. }
      assert (Hpre : (done ++ [c])%list `prefix_of` (done ++ c :: c' :: rest')%list).
      { exists (c' :: rest'). by rewrite <- app_assoc. }
      destruct (fs w !! (done ++ [c])%list) eqn:E.
      * apply IH in H as (H1 & H2 & H3). rewrite <- app_assoc in H1, H2, H3.
        done.
      * destruct (mkdir (done ++ [c])%list w) as [[[]|e] w1] eqn:Hmk; [|discriminate].
        apply mkdir_Ok in Hmk as [_ ->].
        apply IH in H as (H1 & H2 & H3). rewrite <- app_assoc in H1, H2, H3.
        cbn in H1, H3. rewrite lookup_insert_ne in H1 by done.
        split; [exact H1|]. split; [exact H2|].
        intros q Hq. rewrite H3 by done. apply lookup_insert_ne.
        intros <-. by apply Hq.
Qed.

Lemma remove_below_lookup r f q :
  remove_below r f !! q = if decide (strictly_below r q) then None else f !! q.
Proof.
  unfold remove_below. destruct (decide (strictly_below r q)) as [Hb|Hb].
  - apply map_lookup_filter_None. right. intros x _ Hx. by apply Hx.
  - destruct (f !! q) as [x|] eqn:E.
    + apply map_lookup_filter_Some. done.
    + apply map_lookup_filter_None. by left.
Qed.

Lemma not_strictly_below_self r : ¬ strictly_below r r.
Proof. intros [_ H]. by apply H. Qed.

(** After [rmtree], whether it returned or raised, a target that does not
    exist has nothing below it either. *)
Lemma rmtree_absent_after p w res w2 :
  wf w ->
  rmtree p w = (res, w2) ->
  cwd w2 = cwd w
  /\ (fs w2 !! resolve w p = None ->
      forall q, resolve w p `prefix_of` q -> fs w2 !! q = None).
Proof.
  intros Hwf. unfold rmtree. set (r := resolve w p).
  destruct (fs w !! r) as [[|img]|] eqn:Hr.
  - destruct (decide (blocked_below w r)).
    { intros [= _ <-]. split; [done|]. congruence. }
    assert (Hkept : remove_below r (fs w) !! r = Some Dir).
    { rewrite remove_below_lookup, decide_False by apply not_strictly_below_self.
      exact Hr. }
    destruct r as [|x r'] eqn:Er.
    { intros [= _ <-]. split; [done|]. cbn. congruence. }
    rewrite <- Er in *.
    destruct (decide (parent r ∈ readonly w)).
    { intros [= _ <-]. split; [done|]. cbn. congruence. }
    intros [= _ <-]. split; [done|]. cbn. intros _ q Hq.
    destruct (decide (r = q)) as [<-|Hne]; [apply lookup_delete_eq|].
    rewrite lookup_delete_ne, remove_below_lookup, decide_True by done.
    reflexivity.
  - intros [= _ <-]. split; [done|]. congruence.
  - intros [= _ <-]. split; [done|]. intros _ q Hq.
    by apply (wf_absent_below w r).
Qed.

Lemma resolve_cwd w w2 p : cwd w2 = cwd w -> resolve w2 p = resolve w p.
Proof. intros H. unfold resolve. by rewrite H. Qed.

Lemma sim_abspath pd w :
  os_path_abspath pd w = (Ok (posixpath.abspath_from (cwd w) pd), w).
Proof.
  unfold os_path_abspath, posixpath.abspath_from.
  destruct (posixpath.isabs pd); reflexivity.
Qed.

(** A construction that succeeds leaves its directory empty: the target is
    a directory and nothing lies below it. *)
Lemma init_leaves_empty_directory rn show pd kw w h w' :
  wf w ->
  __init__ rn show pd kw w = (Ok h, w') ->
  dir_name h = posixpath.join (posixpath.abspath_from (cwd w) pd) rn
  /\ fs w' !! resolve w (dir_name h) = Some Dir
  /\ forall q, strictly_below (resolve w (dir_name h)) q -> fs w' !! q = None.
Proof.
  intros Hwf Hinit. rewrite init_run, sim_abspath in Hinit. cbn zeta in Hinit.
  set (d := posixpath.join (posixpath.abspath_from (cwd w) pd) rn) in *.
  change (@shutil_rmtree env) with rmtree in Hinit.
  change (@os_makedirs env) with makedirs in Hinit. cbv beta in Hinit.
  assert (Hmake : exists res w2,
            rmtree d w = (res, w2)
            /\ makedirs d w2 = (Ok tt, w') /\ dir_name h = d).
  { destruct (rmtree d w) as [[[]|e] w2] eqn:Hrm;
      [|destruct (is_OSError e); [|discriminate]];
      destruct (makedirs d w2) as [[[]|e'] w3] eqn:Hmk; try discriminate;
      injection Hinit as <- <-; eauto. }
  destruct Hmake as (res & w2 & Hrm & Hmk & Hd). rewrite Hd.
  split; [reflexivity|].
  destruct (rmtree_absent_after d w res w2 Hwf Hrm) as [Hcwd Habsent].
  unfold makedirs in Hmk.
  rewrite (resolve_cwd w w2 d Hcwd) in Hmk.
  apply makedirs_from_Ok in Hmk as (Hnone & Hdir & Hsame). cbn [app] in *.
  split; [exact Hdir|].
  intros q [Hpre Hne]. rewrite Hsame.
  - by apply Habsent.
  - intros Hq. apply Hne. by apply (anti_symm prefix).
Qed.

End SimFacts.

(** C10. With an empty report name the directory of the object is the
    absolute parent directory followed by a separator, which names the parent
    directory itself: the directory that construction removes recursively
    and makes again is the parent directory, and after a construction that
    succeeds the parent directory is an empty directory, whatever it held
    before, other reports' folders included. *)
Theorem init_empty_report_name_clears_parent show pd kw (w : Sim.sim_world) h w' :
  Sim.wf w ->
  __init__ "" show pd kw w = (Ok h, w') ->
  let parent_directory := posixpath.abspath_from (Sim.cwd w) pd in
  dir_name h = posixpath.join parent_directory ""
  /\ Sim.resolve w (dir_name h) = Sim.resolve w parent_directory
  /\ Sim.fs w' !! Sim.resolve w parent_directory = Some Sim.Dir
  /\ forall q, Sim.strictly_below (Sim.resolve w parent_directory) q ->
               Sim.fs w' !! q = None.
Proof.
  intros Hwf Hinit parent_directory.
  destruct (SimFacts.init_leaves_empty_directory "" show pd kw w h w' Hwf Hinit)
    as (Hd & Hdir & Hbelow).
  assert (Hres : Sim.resolve w (dir_name h) = Sim.resolve w parent_directory).
  { rewrite Hd. apply SimFacts.resolve_join_empty. }
  rewrite Hres in Hdir, Hbelow. done.
Qed.

Lemma init_empty_report_name_clears_parent_witness :
  let w := world Sim.st3 in
  let parent_directory := posixpath.abspath_from (Sim.cwd w) "figures" in
  dir_name Sim.h_empty = posixpath.join parent_directory ""
  /\ Sim.resolve w (dir_name Sim.h_empty) = Sim.resolve w parent_directory
  /\ Sim.fs Sim.w_reset !! Sim.resolve w parent_directory = Some Sim.Dir
  /\ forall q, Sim.strictly_below (Sim.resolve w parent_directory) q ->
               Sim.fs Sim.w_reset !! q = None.
Proof.
  apply (init_empty_report_name_clears_parent true "figures" ∅ (world Sim.st3)
           Sim.h_empty Sim.w_reset).
  - apply (bool_decide_unpack _). vm_compute. reflexivity.
  - vm_compute. reflexivity.
Defined.

(** The two figures of the report were there before and are gone after. *)
Example empty_report_name_removes_report :
  Sim.resolve (world Sim.st3) "/home/u/figures/" = ["home"; "u"; "figures"]
  /\ is_Some (Sim.fs (world Sim.st3)
               !! ["home"; "u"; "figures"; "report"; "figure_002.png"])
  /\ Sim.fs Sim.w_reset !! ["home"; "u"; "figures"; "report"; "figure_002.png"] = None
  /\ Sim.fs Sim.w_reset !! ["home"; "u"; "figures"; "report"] = None
  /\ Sim.fs Sim.w_reset !! ["home"; "u"; "figures"] = Some Sim.Dir.
Proof. vm_compute. eauto 10. Qed.

(** * Further properties of the code *)

(** ** The object across calls *)

Section CallFacts.
Context `{env : Env}.

Lemma figsave_self fig title st :
  self (snd (figsave fig title st)) = self st
  \/ self (snd (figsave fig title st)) = bump (self st).
Proof.
  rewrite figsave_run. pose proof (stamp_title_self fig title st) as Hs.
  destruct (stamp_title fig title st) as [[[]|e] st1]; cbn [snd] in Hs |- *;
    [|by left].
  rewrite Hs.
  destruct (fig_get_facecolor _ _) as [[c|e] w2]; [|by left].
  destruct (fig_savefig _ _ _ _ _) as [[[]|e] w3]; [|by left].
  destruct (plt_close _ _) as [[[]|e] w4]; by right.
Qed.

Lemma figdisp_self fig title st :
  self (snd (figdisp fig title st)) = self (snd (figsave fig title st)).
Proof.
  rewrite figdisp_run. destruct (figsave fig title st) as [[fname|e] st1]; [|done].
  destruct (IPython_Image _ _) as [[image|e] w2]; [|done].
  destruct (IPython_display _ _); done.
Qed.

Lemma call_self ofig title st :
  self (snd (__call__ ofig title st)) = self st
  \/ self (snd (__call__ ofig title st)) = bump (self st).
Proof.
  destruct ofig as [fig|].
  - change (__call__ (Some fig) title st) with (figdisp fig title st).
    rewrite figdisp_self. apply figsave_self.
  - assert (Hrun : __call__ None title st =
              match plt_gcf (world st) with
              | (Ok current, w1) =>
                  figdisp current title {| self := self st; world := w1 |}
              | (Raise e, w1) => (Raise e, {| self := self st; world := w1 |})
              end).
    { unfold __call__, ext. unfold_monad.
      destruct (plt_gcf (world st)) as [[current|e] w1]; reflexivity. }
    rewrite Hrun. destruct (plt_gcf (world st)) as [[current|e] w1]; [|by left].
    rewrite figdisp_self.
    apply (figsave_self current title {| self := self st; world := w1 |}).
Qed.

(** The counter moves exactly when the write has returned, and then the
    file has the name made from the counter before the call. *)
Lemma written_by_self fig title st :
  match written_by fig title st with
  | Some name =>
      name = next_fname (self st)
      /\ self (snd (figsave fig title st)) = bump (self st)
  | None => self (snd (figsave fig title st)) = self st
  end.
Proof.
  unfold written_by. rewrite figsave_run.
  pose proof (stamp_title_self fig title st) as Hs.
  destruct (stamp_title fig title st) as [[[]|e] st1]; cbn [snd] in Hs |- *; [|done].
  rewrite Hs.
  destruct (fig_get_facecolor _ _) as [[c|e] w2]; [|done].
  destruct (fig_savefig _ _ _ _ _) as [[[]|e] w3]; [|done].
  destruct (plt_close _ _) as [[[]|e] w4]; done.
Qed.

Lemma attempts_inv h names h' :
  attempts h names h' ->
  names = (fun i => posixpath.join (dir_name h) (figure_basename i))
            <$> seqZ (current_number h) (Z.of_nat (length names))
  /\ current_number h' = (current_number h + Z.of_nat (length names))%Z
  /\ dir_name h' = dir_name h.
Proof.
  induction 1 as [h|h fig title w r h' w' names h'' Hcall _ IH].
  - cbn. rewrite seqZ_nil by lia. repeat split; lia.
  - pose proof (written_by_self fig title {| self := h; world := w |}) as Hw.
    rewrite Hcall in Hw. cbn [snd self] in Hw.
    destruct IH as (IHn & IHc & IHd).
    destruct (written_by fig title _) as [name|]; cbn [option_list app].
    + destruct Hw as [-> ->]. cbn in IHn, IHc, IHd |- *.
      rewrite IHc, IHd. repeat split; try lia.
      rewrite seqZ_cons by lia. cbn [fmap list_fmap]. f_equal.
      rewrite IHn at 1. do 2 f_equal; lia.
    + subst h'. done.
Qed.

End CallFacts.

(** X1. Whatever a call of [figsave], [figdisp] or the object itself does,
    and whether it returns or raises, it leaves the report name, the
    [show_title] flag, the title options and the directory of the object as
    they were, and the counter where it was or one further: the counter is
    never reset and never skips a number. *)
Theorem calls_keep_configuration `{env : Env} fig ofig title st :
  Forall (fun h' =>
            report_name h' = report_name (self st)
            /\ show_title h' = show_title (self st)
            /\ suptitle_kwargs h' = suptitle_kwargs (self st)
            /\ dir_name h' = dir_name (self st)
            /\ (current_number (self st) <= current_number h'
                <= current_number (self st) + 1)%Z)
    [self (snd (figsave fig title st));
     self (snd (figdisp fig title st));
     self (snd (__call__ ofig title st))].
Proof.
  assert (Hcases : forall h', h' = self st \/ h' = bump (self st) ->
            report_name h' = report_name (self st)
            /\ show_title h' = show_title (self st)
            /\ suptitle_kwargs h' = suptitle_kwargs (self st)
            /\ dir_name h' = dir_name (self st)
            /\ (current_number (self st) <= current_number h'
                <= current_number (self st) + 1)%Z).
  { intros h' [->| ->]; cbn; repeat split; lia. }
  apply Forall_cons_2; [apply Hcases, figsave_self|].
  apply Forall_cons_2; [apply Hcases; rewrite figdisp_self; apply figsave_self|].
  apply Forall_cons_2; [apply Hcases, call_self|].
  apply Forall_nil_2.
Qed.

(** X2. Over any run of [figsave] calls after construction, returning or
    raising in any order, the files whose write returned are named
    figure_001.png, figure_002.png, ... in the order written: a failed call
    leaves no gap, no number names two written files, and the counter ends
    one above the number of files written. *)
Theorem written_files_numbered `{env : Env} rn show pd kw w h w' names h' :
  __init__ rn show pd kw w = (Ok h, w') ->
  attempts h names h' ->
  names = (fun n => posixpath.join (dir_name h)
                      ("figure_" ++ Fmt.percent_0d 3 n ++ ".png"))
            <$> seqZ 1 (Z.of_nat (length names))
  /\ NoDup names
  /\ current_number h' = (1 + Z.of_nat (length names))%Z.
Proof.
  intros Hinit Hrun.
  apply init_Ok in Hinit as (parent & w1 & _ & Hh).
  assert (Hc : current_number h = 1%Z) by (subst h; reflexivity).
  apply attempts_inv in Hrun as (Hnames & Hcount & _).
  rewrite Hc in Hnames, Hcount.
  split; [exact Hnames|]. split; [|exact Hcount].
  rewrite Hnames. apply NoDup_fmap_2_strong; [|apply NoDup_seqZ].
  intros i j Hi%elem_of_seqZ Hj%elem_of_seqZ E.
  apply next_name_inj in E; [done|lia..].
Qed.

Lemma written_files_numbered_witness :
  let names := ["/home/u/figures/report/figure_001.png"] in
  names = (fun n => posixpath.join (dir_name Sim.h1)
                      ("figure_" ++ Fmt.percent_0d 3 n ++ ".png"))
            <$> seqZ 1 (Z.of_nat (length names))
  /\ NoDup names
  /\ current_number (self Sim.st2) = (1 + Z.of_nat (length names))%Z.
Proof.
  apply (@written_files_numbered Sim.env "report" true "figures" ∅
           Sim.w0 Sim.h1 Sim.w1).
  - vm_compute. reflexivity.
  - assert (Hfailed : (option_list (written_by (1%nat : Figure) None Sim.st_gone)
                         ++ ["/home/u/figures/report/figure_001.png"])%list
                      = ["/home/u/figures/report/figure_001.png"])
      by (vm_compute; reflexivity).
    rewrite <- Hfailed.
    apply (@attempts_cons Sim.env Sim.h1 1%nat None Sim.w_gone
             (Raise FileNotFoundError) Sim.h1 Sim.w_gone
             ["/home/u/figures/report/figure_001.png"] (self Sim.st2)).
    + vm_compute. reflexivity.
    + assert (Hwrote : (option_list (written_by (1%nat : Figure) (Some "Title") Sim.st1)
                          ++ [])%list
                       = ["/home/u/figures/report/figure_001.png"])
        by (vm_compute; reflexivity).
      rewrite <- Hwrote.
      apply (@attempts_cons Sim.env Sim.h1 1%nat (Some "Title") Sim.w1
               (Ok "/home/u/figures/report/figure_001.png")
               (self Sim.st2) (world Sim.st2) [] (self Sim.st2)).
      * vm_compute. reflexivity.
      * apply attempts_nil.
Defined.

(** ** Tables: the other ways to name the figure columns *)

Lemma assert_all_in_present index_contains cols requested :
  Forall (fun c => index_contains cols c = true) requested ->
  assert_all_in index_contains cols requested = Ok tt.
Proof.
  induction 1 as [|c requested Hc _ IH]; [reflexivity|].
  cbn. by rewrite Hc.
Qed.

Lemma dict_set_keys {V} k (v : V) d :
  NoDup d.*1 -> NoDup (dict_set k v d).*1.
Proof.
  induction d as [|[k' v'] d IH]; cbn.
  - intros _. apply NoDup_singleton.
  - intros [Hk' Hd]%NoDup_cons. destruct (decide (k' = k)) as [->|Hne]; cbn.
    + by apply NoDup_cons.
    + apply NoDup_cons. split; [|by apply IH].
      intros [[k2 v2] [Hk2 Hin]]%list_elem_of_fmap. cbn in Hk2. subst k2.
      assert (Hget : is_Some (dict_get k' (dict_set k v d))).
      { clear -Hin. induction (dict_set k v d) as [|[a b] l IHl];
          [by apply elem_of_nil in Hin|].
        cbn. destruct (decide (a = k')); [eauto|].
        apply IHl. apply elem_of_cons in Hin as [[= -> ->]|?]; done. }
      rewrite dict_get_set, decide_False in Hget by done.
      apply Hk'. destruct Hget as [x Hx]. clear -Hx.
      induction d as [|[a b] d IHd]; [discriminate|].
      cbn in Hx |- *. destruct (decide (a = k')) as [->|]; [left|right; by apply IHd].
Qed.

Lemma dict_from_keys_NoDup {V} keys (v : V) : NoDup (dict_from_keys keys v).*1.
Proof.
  unfold dict_from_keys.
  assert (H : forall d, NoDup d.*1 ->
            NoDup (fold_left (fun d c => dict_set c v d) keys d).*1).
  { induction keys as [|k keys IH]; intros d Hd; [exact Hd|].
    cbn. apply IH. by apply dict_set_keys. }
  apply H. constructor.
Qed.

(** X3. With an explicit list of figure columns that are all among the
    table's columns, [to_html] is called with one formatter for each
    requested column, [cell_figure_mapping], and none for any other column; a
    column requested twice still has one formatter. *)
Theorem html_explicit_columns_formatters `{env : Env} index_contains to_html
    fig_savefig_bytes b64encode (df : DataFrame) requested :
  Forall (fun c => index_contains (columns df) c = true) requested ->
  exists formatters,
    html_from_dataframe index_contains to_html fig_savefig_bytes b64encode df
      (FCList requested)
    = to_html df false formatters 0%Z
    /\ NoDup formatters.*1
    /\ forall c,
         dict_get c formatters =
           if decide (c ∈ requested)
           then Some (cell_figure_mapping fig_savefig_bytes b64encode)
           else None.
Proof.
  intros Hall.
  exists (dict_from_keys requested (cell_figure_mapping fig_savefig_bytes b64encode)).
  split; [|split].
  - unfold html_from_dataframe, select_figure_columns.
    rewrite (assert_all_in_present _ _ _ Hall). reflexivity.
  - apply dict_from_keys_NoDup.
  - intros c. apply dict_from_keys_get.
Qed.

Lemma html_explicit_columns_formatters_witness :
  let requested := [LTuple [SStr "model"; SStr "fig"]; LTuple [SStr "model"; SStr "fig"]] in
  exists formatters,
    Sim.html Sim.df_reports (FCList requested)
    = Sim.to_html Sim.df_reports false formatters 0%Z
    /\ NoDup formatters.*1
    /\ forall c,
         dict_get c formatters =
           if decide (c ∈ requested)
           then Some (cell_figure_mapping Sim.savefig_bytes Sim.b64encode)
           else None.
Proof.
  apply (@html_explicit_columns_formatters Sim.env Sim.index_contains Sim.to_html
           Sim.savefig_bytes Sim.b64encode Sim.df_reports).
  repeat constructor.
Defined.

Lemma infer_raises_at pre c rest e :
  Forall (fun c' => exists b, second_is_fig c' = Ok b) pre ->
  second_is_fig c = Raise e ->
  infer_figure_columns (pre ++ c :: rest)%list = Raise e.
Proof.
  intros Hpre Hc. induction Hpre as [|c' pre [b Hb] _ IH]; cbn.
  - by rewrite Hc.
  - by rewrite Hb, IH.
Qed.

Lemma string_get_short s : String.length s < 2 -> String.get 1 s = None.
Proof.
  destruct s as [|c [|c' s]]; cbn; intros H; try reflexivity. lia.
Qed.

(** X4. With [figure_columns='infer'] the first column label without a
    second element stops the call: an integer label raises [TypeError], a
    name of fewer than two characters or a tuple of fewer than two levels
    raises [IndexError]; the world is as it was and nothing is rendered. *)
Theorem html_infer_raises_on_flat_label `{env : Env} index_contains to_html
    fig_savefig_bytes b64encode (df : DataFrame) pre c rest w :
  columns df = (pre ++ c :: rest)%list ->
  Forall (fun c' => exists b, second_is_fig c' = Ok b) pre ->
  match c with
  | LScalar (SInt _) => True
  | LScalar (SStr s) => String.length s < 2
  | LTuple xs => length xs < 2
  end ->
  html_from_dataframe index_contains to_html fig_savefig_bytes b64encode df FCInfer w
  = (Raise match c with
           | LScalar (SInt _) => TypeError
           | _ => IndexError
           end, w).
Proof.
  intros Hcols Hpre Hc. unfold html_from_dataframe, select_figure_columns.
  rewrite Hcols.
  rewrite (infer_raises_at pre c rest
             (match c with LScalar (SInt _) => TypeError | _ => IndexError end) Hpre);
    [reflexivity|].
  destruct c as [[s|z]|xs]; cbn.
  - by rewrite string_get_short.
  - reflexivity.
  - rewrite lookup_ge_None_2 by lia. reflexivity.
Qed.

Lemma html_infer_raises_on_flat_label_witness :
  Sim.html df_range FCInfer Sim.w1 = (Raise TypeError, Sim.w1).
Proof.
  apply (@html_infer_raises_on_flat_label Sim.env Sim.index_contains Sim.to_html
           Sim.savefig_bytes Sim.b64encode df_range [] (LScalar (SInt 0))
           [LScalar (SInt 1)] Sim.w1).
  - reflexivity.
  - constructor.
  - exact I.
Defined.

Lemma infer_flat_names cols :
  Forall (fun c => exists s, c = LScalar (SStr s) /\ 2 <= String.length s) cols ->
  infer_figure_columns cols = Ok [].
Proof.
  induction 1 as [|c cols (s & -> & Hs) _ IH]; [reflexivity|].
  cbn [infer_figure_columns second_is_fig]. rewrite IH.
  destruct s as [|c0 [|c1 s]]; cbn in Hs; try lia.
  cbn. destruct (Ascii.eqb c1 "f"); reflexivity.
Qed.

(** X5. On a flat index of names of two or more characters ['infer']
    selects no column, not even one named ['fig']: the call is the call
    without figure columns. *)
Theorem html_infer_flat_names_selects_nothing `{env : Env} index_contains to_html
    fig_savefig_bytes b64encode (df : DataFrame) :
  Forall (fun c => exists s, c = LScalar (SStr s) /\ 2 <= String.length s) (columns df) ->
  html_from_dataframe index_contains to_html fig_savefig_bytes b64encode df FCInfer
  = to_html df false [] 0%Z
  /\ html_from_dataframe index_contains to_html fig_savefig_bytes b64encode df FCInfer
     = html_from_dataframe index_contains to_html fig_savefig_bytes b64encode df FCNone.
Proof.
  intros Hflat. unfold html_from_dataframe, select_figure_columns.
  rewrite (infer_flat_names _ Hflat). split; reflexivity.
Qed.

Lemma html_infer_flat_names_selects_nothing_witness :
  Sim.html df_flat FCInfer = Sim.to_html df_flat false [] 0%Z
  /\ Sim.html df_flat FCInfer = Sim.html df_flat FCNone.
Proof.
  apply (@html_infer_flat_names_selects_nothing Sim.env Sim.index_contains Sim.to_html
           Sim.savefig_bytes Sim.b64encode df_flat).
  repeat constructor.
  - exists "name". split; [reflexivity|cbn; lia].
  - exists "fig". split; [reflexivity|cbn; lia].
Defined.

(** ** Plots: the identity line and mismatched arrays *)

Section ExtremaFacts.
Context {Num : Type}.
Variable ltb : Num -> Num -> bool.
Hypothesis ltb_irrefl : forall x, ltb x x = false.
Hypothesis ltb_trans : forall x y z, ltb x y = true -> ltb y z = true -> ltb x z = true.
Hypothesis ltb_neg_trans :
  forall x y z, ltb x z = true -> ltb x y = true \/ ltb y z = true.

Lemma fold_min_spec (l : list Num) : forall m0,
  let m := fold_left (fun m y => if ltb y m then y else m) l m0 in
  m ∈ m0 :: l /\ forall v, v ∈ m0 :: l -> ltb v m = false.
Proof.
  induction l as [|y l IH]; intros m0; cbn.
  - split; [by left|]. intros v ->%list_elem_of_singleton. apply ltb_irrefl.
  - destruct (ltb y m0) eqn:Hy.
    + destruct (IH y) as [Hin Hlow]. cbn in Hin, Hlow.
      set (M := fold_left (fun m y0 => if ltb y0 m then y0 else m) l y) in *.
      split; [by right|].
      intros v [->|Hv]%elem_of_cons; [|by apply Hlow].
      destruct (ltb m0 M) eqn:E; [|reflexivity].
      pose proof (ltb_trans _ _ _ Hy E) as H.
      rewrite (Hlow y) in H; [discriminate|by left].
    + destruct (IH m0) as [Hin Hlow]. cbn in Hin, Hlow.
      set (M := fold_left (fun m y0 => if ltb y0 m then y0 else m) l m0) in *.
      split.
      { apply elem_of_cons in Hin as [Hin|Hin]; [rewrite Hin; by left|by right; right]. }
      intros v [->|Hv]%elem_of_cons; [by apply Hlow; left|].
      apply elem_of_cons in Hv as [->|Hv]; [|by apply Hlow; right].
      destruct (ltb y M) eqn:E; [|reflexivity].
      destruct (ltb_neg_trans _ m0 _ E) as [H|H]; [congruence|].
      rewrite Hlow in H by (by left). discriminate.
Qed.

Lemma fold_max_spec (l : list Num) : forall m0,
  let m := fold_left (fun m y => if ltb m y then y else m) l m0 in
  m ∈ m0 :: l /\ forall v, v ∈ m0 :: l -> ltb m v = false.
Proof.
  induction l as [|y l IH]; intros m0; cbn.
  - split; [by left|]. intros v ->%list_elem_of_singleton. apply ltb_irrefl.
  - destruct (ltb m0 y) eqn:Hy.
    + destruct (IH y) as [Hin Hhigh]. cbn in Hin, Hhigh.
      set (M := fold_left (fun m y0 => if ltb m y0 then y0 else m) l y) in *.
      split; [by right|].
      intros v [->|Hv]%elem_of_cons; [|by apply Hhigh].
      destruct (ltb M m0) eqn:E; [|reflexivity].
      pose proof (ltb_trans _ _ _ E Hy) as H.
      rewrite (Hhigh y) in H; [discriminate|by left].
    + destruct (IH m0) as [Hin Hhigh]. cbn in Hin, Hhigh.
      set (M := fold_left (fun m y0 => if ltb m y0 then y0 else m) l m0) in *.
      split.
      { apply elem_of_cons in Hin as [Hin|Hin]; [rewrite Hin; by left|by right; right]. }
      intros v [->|Hv]%elem_of_cons; [by apply Hhigh; left|].
      apply elem_of_cons in Hv as [->|Hv]; [|by apply Hhigh; right].
      destruct (ltb M y) eqn:E; [|reflexivity].
      destruct (ltb_neg_trans _ m0 _ E) as [H|H]; [|congruence].
      rewrite Hhigh in H by (by left). discriminate.
Qed.

Lemma py_min_spec (l : list Num) :
  l <> [] ->
  exists m, py_min ltb l = Ok m /\ m ∈ l /\ forall v, v ∈ l -> ltb v m = false.
Proof.
  destruct l as [|x l]; [done|]. intros _. eexists. split; [reflexivity|].
  apply fold_min_spec.
Qed.

Lemma py_max_spec (l : list Num) :
  l <> [] ->
  exists m, py_max ltb l = Ok m /\ m ∈ l /\ forall v, v ∈ l -> ltb m v = false.
Proof.
  destruct l as [|x l]; [done|]. intros _. eexists. split; [reflexivity|].
  apply fold_max_spec.
Qed.

(** The smallest of the two minima is below every value of both arrays,
    and likewise the largest of the two maxima. *)
Lemma min_of_both (a b : list Num) ma mb :
  ma ∈ a -> mb ∈ b ->
  (forall v, v ∈ a -> ltb v ma = false) -> (forall v, v ∈ b -> ltb v mb = false) ->
  exists m, py_min ltb [ma; mb] = Ok m
            /\ m ∈ (a ++ b)%list /\ forall v, v ∈ (a ++ b)%list -> ltb v m = false.
Proof.
  intros Ha Hb Hla Hlb.
  destruct (py_min_spec [ma; mb]) as (m & Hm & Hin & Hlow); [done|].
  exists m. split; [exact Hm|]. split.
  - apply elem_of_app.
    apply elem_of_cons in Hin as [->|Hin]; [by left|].
    apply list_elem_of_singleton in Hin as ->. by right.
  - intros v [Hv|Hv]%elem_of_app; destruct (ltb v m) eqn:E; try reflexivity.
    + destruct (ltb_neg_trans _ ma _ E) as [H|H].
      * rewrite Hla in H by done. discriminate.
      * rewrite Hlow in H by (by left). discriminate.
    + destruct (ltb_neg_trans _ mb _ E) as [H|H].
      * rewrite Hlb in H by done. discriminate.
      * rewrite Hlow in H by (right; by left). discriminate.
Qed.

Lemma max_of_both (a b : list Num) ma mb :
  ma ∈ a -> mb ∈ b ->
  (forall v, v ∈ a -> ltb ma v = false) -> (forall v, v ∈ b -> ltb mb v = false) ->
  exists m, py_max ltb [ma; mb] = Ok m
            /\ m ∈ (a ++ b)%list /\ forall v, v ∈ (a ++ b)%list -> ltb m v = false.
Proof.
  intros Ha Hb Hla Hlb.
  destruct (py_max_spec [ma; mb]) as (m & Hm & Hin & Hhigh); [done|].
  exists m. split; [exact Hm|]. split.
  - apply elem_of_app.
    apply elem_of_cons in Hin as [->|Hin]; [by left|].
    apply list_elem_of_singleton in Hin as ->. by right.
  - intros v [Hv|Hv]%elem_of_app; destruct (ltb m v) eqn:E; try reflexivity.
    + destruct (ltb_neg_trans _ ma _ E) as [H|H].
      * rewrite Hhigh in H by (by left). discriminate.
      * rewrite Hla in H by done. discriminate.
    + destruct (ltb_neg_trans _ mb _ E) as [H|H].
      * rewrite Hhigh in H by (right; by left). discriminate.
      * rewrite Hlb in H by done. discriminate.
Qed.

End ExtremaFacts.

(** X6. For arrays that are not empty and a comparison that is a strict
    weak order, the observed-against-predicted panel gets the regression
    plot of observations over predictions, an identity line from [(mn, mn)]
    to [(mx, mx)] and the same limits [mn] to [mx] on both axes, where [mn]
    and [mx] are values of the data with no value of either array below [mn]
    or above [mx]; the y label is set only when asked for, and what was on
    the axes before is kept. *)
Theorem identity_line_spans_data {Num : Type} (ltb : Num -> Num -> bool)
    (observations predictions : list Num) ax ylabel :
  (forall x, ltb x x = false) ->
  (forall x y z, ltb x y = true -> ltb y z = true -> ltb x z = true) ->
  (forall x y z, ltb x z = true -> ltb x y = true \/ ltb y z = true) ->
  observations <> [] -> predictions <> [] ->
  exists mn mx,
    _actual_plot_observed_vs_predicted ltb observations predictions ax ylabel
    = Ok (axes_or_new ax
          ++ [regplot predictions observations 99 "C0";
              set_aspect_equal;
              plot [mn; mx] [mn; mx] "--" "k" (Some (-1)%Z);
              set_xlim mn mx; set_ylim mn mx;
              despine false;
              set_xlabel "Predicted"]
          ++ (if ylabel then [set_ylabel "Observed"] else []))%list
    /\ mn ∈ (observations ++ predictions)%list
    /\ mx ∈ (observations ++ predictions)%list
    /\ forall v, v ∈ (observations ++ predictions)%list ->
                 ltb v mn = false /\ ltb mx v = false.
Proof.
  intros Hirr Htr Hneg Ho Hp.
  destruct (py_min_spec ltb Hirr Htr Hneg observations Ho) as (mo & Emo & Hmo & Lmo).
  destruct (py_min_spec ltb Hirr Htr Hneg predictions Hp) as (mp & Emp & Hmp & Lmp).
  destruct (py_max_spec ltb Hirr Htr Hneg observations Ho) as (xo & Exo & Hxo & Lxo).
  destruct (py_max_spec ltb Hirr Htr Hneg predictions Hp) as (xp & Exp & Hxp & Lxp).
  destruct (min_of_both ltb Hirr Htr Hneg _ _ mo mp Hmo Hmp Lmo Lmp)
    as (mn & Emn & Hmn & Lmn).
  destruct (max_of_both ltb Hirr Htr Hneg _ _ xo xp Hxo Hxp Lxo Lxp)
    as (mx & Emx & Hmx & Lmx).
  exists mn, mx. split; [|split; [exact Hmn|split; [exact Hmx|]]].
  - unfold _actual_plot_observed_vs_predicted.
    rewrite Emo, Emp. cbn [res_bind]. rewrite Emn. cbn [res_bind].
    rewrite Exo, Exp. cbn [res_bind]. rewrite Emx. cbn [res_bind].
    destruct ylabel; rewrite <- ?app_assoc, ?app_nil_r; reflexivity.
  - intros v Hv. split; [by apply Lmn|by apply Lmx].
Qed.

Lemma identity_line_spans_data_witness :
  exists mn mx,
    _actual_plot_observed_vs_predicted Z.ltb IntPlots.observations IntPlots.predictions
      None true
    = Ok ([regplot IntPlots.predictions IntPlots.observations 99 "C0";
           set_aspect_equal;
           plot [mn; mx] [mn; mx] "--" "k" (Some (-1)%Z);
           set_xlim mn mx; set_ylim mn mx;
           despine false;
           set_xlabel "Predicted"]
          ++ [set_ylabel "Observed"])%list
    /\ mn ∈ (IntPlots.observations ++ IntPlots.predictions)%list
    /\ mx ∈ (IntPlots.observations ++ IntPlots.predictions)%list
    /\ forall v, v ∈ (IntPlots.observations ++ IntPlots.predictions)%list ->
                 Z.ltb v mn = false /\ Z.ltb mx v = false.
Proof.
  apply (identity_line_spans_data Z.ltb IntPlots.observations IntPlots.predictions
           None true).
  - intros x. apply Z.ltb_irrefl.
  - intros x y z Hxy%Z.ltb_lt Hyz%Z.ltb_lt. apply Z.ltb_lt. lia.
  - intros x y z Hxz%Z.ltb_lt. destruct (Z.ltb_spec x y); [by left|].
    right. apply Z.ltb_lt. lia.
  - discriminate.
  - discriminate.
Defined.

Example identity_line_of_integers :
  _actual_plot_observed_vs_predicted Z.ltb IntPlots.observations IntPlots.predictions
    None false
  = Ok [regplot IntPlots.predictions IntPlots.observations 99 "C0";
        set_aspect_equal;
        plot [10; 60]%Z [10; 60]%Z "--" "k" (Some (-1)%Z);
        set_xlim 10%Z 60%Z; set_ylim 10%Z 60%Z;
        despine false;
        set_xlabel "Predicted"].
Proof. reflexivity. Qed.

(** X7. When the two arrays differ in length and neither has length one,
    the subtraction cannot broadcast: [plot_residuals] raises [ValueError]
    and returns no axes. *)
Theorem plot_residuals_length_mismatch {Num : Type} (sub : Num -> Num -> Num)
    get_xlim get_ylim (observations predictions : list Num) ax ylabel :
  length observations <> length predictions ->
  length observations <> 1 -> length predictions <> 1 ->
  plot_residuals sub get_xlim get_ylim observations predictions ax ylabel
  = Raise ValueError.
Proof.
  intros Hne Ho Hp. unfold plot_residuals, np_subtract.
  apply Nat.eqb_neq in Hne. rewrite Hne.
  destruct observations as [|o [|o' os]], predictions as [|p [|p' ps]];
    cbn in *; try reflexivity; lia.
Qed.

Lemma plot_residuals_length_mismatch_witness :
  plot_residuals Z.sub IntPlots.lim IntPlots.lim IntPlots.observations [25; 60]%Z
    None true
  = Raise ValueError.
Proof.
  apply (plot_residuals_length_mismatch Z.sub IntPlots.lim IntPlots.lim
           IntPlots.observations [25; 60]%Z None true); cbn; lia.
Defined.

(** ** The file system at construction *)

Module DirFacts.
Import Sim SimFacts.

Lemma rmtree_outside p w res w2 :
  rmtree p w = (res, w2) ->
  forall q, ¬ resolve w p `prefix_of` q -> fs w2 !! q = fs w !! q.
Proof.
  unfold rmtree. set (r := resolve w p).
  assert (Hrm : forall q, ¬ r `prefix_of` q -> remove_below r (fs w) !! q = fs w !! q).
  { intros q Hq. rewrite remove_below_lookup, decide_False; [done|].
    intros [Hpre _]. by apply Hq. }
  destruct (fs w !! r) as [[|img]|] eqn:Hr; [|by intros [= _ <-]..].
  destruct (decide (blocked_below w r)); [by intros [= _ <-]|].
  destruct r as [|x r'] eqn:Er; [intros [= _ <-]; exact Hrm|].
  rewrite <- Er in *.
  destruct (decide (parent r ∈ readonly w)); [intros [= _ <-]; exact Hrm|].
  intros [= _ <-] q Hq. cbn. rewrite lookup_delete_ne; [by apply Hrm|].
  intros <-. by apply Hq.
Qed.

Lemma mkdir_succeeds (r : path) w :
  r <> [] -> fs w !! r = None -> fs w !! parent r = Some Dir ->
  parent r ∉ readonly w ->
  mkdir r w = (Ok tt, set_fs (<[r := Dir]> (fs w)) w).
Proof.
  intros Hr Hnone Hparent Hro. unfold mkdir. rewrite Hnone.
  destruct r; [done|]. rewrite Hparent. by rewrite decide_False.
Qed.

(** [makedirs] never changes an entry that exists, and what it creates are
    directories on the way to its target. *)
Lemma makedirs_from_existing todo : forall done w w',
  makedirs_from done todo w = (Ok tt, w') ->
  forall q x, fs w !! q = Some x -> fs w' !! q = Some x.
Proof.
  assert (Hmk : forall r w w', mkdir r w = (Ok tt, w') ->
            forall q x, fs w !! q = Some x -> fs w' !! q = Some x).
  { intros r w w' [Hnone ->]%mkdir_Ok q x Hq. cbn.
    rewrite lookup_insert_ne; [done|]. intros <-. congruence. }
  induction todo as [|c rest IH]; intros done w w' H; [by eapply Hmk|].
  destruct rest as [|c' rest']; [by eapply Hmk|].
  cbn [makedirs_from] in H. unfold mbind, M_bind, bind in H.
  destruct (fs w !! (done ++ [c])%list) eqn:E; [exact (IH _ _ _ H)|].
  destruct (mkdir (done ++ [c])%list w) as [[[]|e] w1] eqn:Hmk1; [|discriminate].
  intros q x Hq. apply (IH _ _ _ H). by apply (Hmk _ _ _ Hmk1).
Qed.

Lemma makedirs_from_succeeds todo : forall made w,
  todo <> [] ->
  fs w !! made = Some Dir ->
  (forall k, k `prefix_of` todo -> k <> todo ->
     ((made ++ k)%list ∉ readonly w)
     /\ (forall img, fs w !! (made ++ k)%list <> Some (File img))) ->
  fs w !! (made ++ todo)%list = None ->
  exists w', makedirs_from made todo w = (Ok tt, w').
Proof.
  assert (Hleaf : forall made c w,
            fs w !! made = Some Dir -> made ∉ readonly w ->
            fs w !! (made ++ [c])%list = None ->
            mkdir (made ++ [c])%list w
            = (Ok tt, set_fs (<[(made ++ [c])%list := Dir]> (fs w)) w)).
  { intros made c w Hdone Hro Hnone. apply mkdir_succeeds; rewrite ?parent_snoc; try done.
    destruct made; done. }
  induction todo as [|c rest IH]; intros made w Hne Hdone Hanc Hnone; [done|].
  assert (Hro : made ∉ readonly w).
  { destruct (Hanc [] (prefix_nil _)) as [H _]; [done|]. by rewrite app_nil_r in H. }
  destruct rest as [|c' rest'].
  - eexists. cbn. by apply Hleaf.
  - cbn [makedirs_from]. unfold mbind, M_bind, bind.
    assert (Hpre : [c] `prefix_of` c :: c' :: rest') by (by exists (c' :: rest')).
    destruct (Hanc [c] Hpre) as [Hro1 Hfile1]; [done|].
    assert (Hstep : forall w1,
              readonly w1 = readonly w ->
              fs w1 !! (made ++ [c])%list = Some Dir ->
              (forall q, q <> (made ++ [c])%list -> fs w1 !! q = fs w !! q) ->
              exists w', makedirs_from (made ++ [c])%list (c' :: rest') w1 = (Ok tt, w')).
    { intros w1 Hro' Hdir Hsame. apply IH; [done|exact Hdir| |].
      - intros k Hk Hkne. rewrite Hro'.
        destruct k as [|k0 k'].
        + rewrite app_nil_r. split; [exact Hro1|]. intros img. rewrite Hdir. discriminate.
        + assert (Hk' : (c :: k0 :: k') `prefix_of` c :: c' :: rest')
            by (by apply prefix_cons).
          destruct (Hanc (c :: k0 :: k') Hk') as [H1 H2]; [congruence|].
          rewrite <- app_assoc. cbn. split; [exact H1|].
          intros img. rewrite Hsame; [apply H2|].
          intros E. apply (f_equal length) in E. rewrite !length_app in E. cbn in E. lia.
      - rewrite <- app_assoc. cbn. rewrite Hsame; [exact Hnone|].
        intros E. apply (f_equal length) in E. rewrite !length_app in E. cbn in E. lia. }
    destruct (fs w !! (made ++ [c])%list) as [[|img]|] eqn:E.
    + apply Hstep; done.
    + by destruct (Hfile1 img).
    + rewrite (Hleaf made c w Hdone Hro E). apply Hstep; cbn; [done| |].
      * apply lookup_insert_eq.
      * intros q Hq. by apply lookup_insert_ne.
Qed.

Lemma ancestors_spec r k : k `prefix_of` r -> k <> r -> k ∈ ancestors r.
Proof.
  intros [t ->] Hne. unfold ancestors. apply list_elem_of_fmap.
  exists (length k). split.
  - by rewrite take_app_length.
  - apply elem_of_seq. rewrite length_app. destruct t; [|cbn; lia].
    by rewrite app_nil_r in Hne.
Qed.

Lemma creatable_spec w (r k : path) :
  creatable w r = true -> k `prefix_of` r -> k <> r ->
  (k ∉ readonly w) /\ (forall img, fs w !! k <> Some (File img)).
Proof.
  intros Hc Hk Hne. unfold creatable in Hc. rewrite forallb_forall in Hc.
  specialize (Hc k). rewrite <- list_elem_of_In in Hc.
  specialize (Hc (ancestors_spec r k Hk Hne)).
  destruct (fs w !! k) as [[|img]|]; try discriminate;
    (split; [|done]); apply negb_true_iff, bool_decide_eq_false in Hc; exact Hc.
Qed.

Lemma rmtree_no_new p w res w2 :
  rmtree p w = (res, w2) -> forall q, fs w !! q = None -> fs w2 !! q = None.
Proof.
  unfold rmtree. set (r := resolve w p).
  assert (Hrm : forall q, fs w !! q = None -> remove_below r (fs w) !! q = None).
  { intros q Hq. rewrite remove_below_lookup. by destruct (decide _). }
  destruct (fs w !! r) as [[|img]|] eqn:Hr; [|by intros [= _ <-]..].
  destruct (decide (blocked_below w r)); [by intros [= _ <-]|].
  destruct r as [|x r'] eqn:Er; [intros [= _ <-]; exact Hrm|].
  rewrite <- Er in *.
  destruct (decide (parent r ∈ readonly w)); [intros [= _ <-]; exact Hrm|].
  intros [= _ <-] q Hq. cbn. destruct (decide (r = q)) as [<-|Hne].
  - apply lookup_delete_eq.
  - rewrite lookup_delete_ne by done. by apply Hrm.
Qed.

(** A construction that returns has removed, then made, the directory. *)
Lemma sim_init_Ok rn show pd kw w h w' :
  __init__ rn show pd kw w = (Ok h, w') ->
  let d := posixpath.join (posixpath.abspath_from (cwd w) pd) rn in
  exists res w2,
    rmtree d w = (res, w2) /\ makedirs d w2 = (Ok tt, w')
    /\ h = {| report_name := rn; show_title := show; current_number := 1;
              suptitle_kwargs := dict_update default_suptitle_kwargs kw;
              dir_name := d |}.
Proof.
  intros Hinit d. rewrite init_run, sim_abspath in Hinit. cbn zeta in Hinit.
  fold d in Hinit.
  change (@shutil_rmtree env) with rmtree in Hinit.
  change (@os_makedirs env) with makedirs in Hinit. cbv beta in Hinit.
  destruct (rmtree d w) as [[[]|e] w2] eqn:Hrm;
    [|destruct (is_OSError e); [|discriminate]];
    destruct (makedirs d w2) as [[[]|e'] w3] eqn:Hmk; try discriminate;
    injection Hinit as <- <-; eauto.
Qed.

End DirFacts.

(** X8. A construction that returns leaves its directory an empty
    directory and touches nothing else: every entry that existed outside the
    directory is as it was, and nothing new exists except the directory and
    the ancestors that had to be made for it. *)
Theorem init_touches_only_its_directory rn show pd kw (w : Sim.sim_world) h w' :
  Sim.wf w ->
  __init__ rn show pd kw w = (Ok h, w') ->
  let r := Sim.resolve w (dir_name h) in
  Sim.fs w' !! r = Some Sim.Dir
  /\ (forall q, Sim.strictly_below r q -> Sim.fs w' !! q = None)
  /\ (forall q x, ¬ r `prefix_of` q -> Sim.fs w !! q = Some x -> Sim.fs w' !! q = Some x)
  /\ (forall q, ¬ q `prefix_of` r -> Sim.fs w !! q = None -> Sim.fs w' !! q = None).
Proof.
  intros Hwf Hinit r.
  destruct (SimFacts.init_leaves_empty_directory rn show pd kw w h w' Hwf Hinit)
    as (_ & Hdir & Hbelow).
  destruct (DirFacts.sim_init_Ok rn show pd kw w h w' Hinit)
    as (res & w2 & Hrm & Hmk & Hh).
  assert (Hd : dir_name h = posixpath.join (posixpath.abspath_from (Sim.cwd w) pd) rn)
    by (subst h; reflexivity).
  destruct (SimFacts.rmtree_absent_after _ w res w2 Hwf Hrm) as [Hcwd _].
  unfold Sim.makedirs in Hmk. rewrite (SimFacts.resolve_cwd w w2 _ Hcwd), <- Hd in Hmk.
  fold r in Hmk, Hdir, Hbelow.
  split; [exact Hdir|]. split; [exact Hbelow|]. split.
  - intros q x Hq Hx.
    apply (DirFacts.makedirs_from_existing _ _ _ _ Hmk).
    rewrite (DirFacts.rmtree_outside _ w res w2 Hrm); [exact Hx|].
    rewrite <- Hd. exact Hq.
  - intros q Hq Hnone.
    apply SimFacts.makedirs_from_Ok in Hmk as (_ & _ & Hsame).
    rewrite Hsame by exact Hq.
    by apply (DirFacts.rmtree_no_new _ w res w2 Hrm).
Qed.

Lemma init_touches_only_its_directory_witness :
  let w := world Sim.st3 in
  let r := Sim.resolve w (dir_name h_second) in
  Sim.fs w_second !! r = Some Sim.Dir
  /\ (forall q, Sim.strictly_below r q -> Sim.fs w_second !! q = None)
  /\ (forall q x, ¬ r `prefix_of` q -> Sim.fs w !! q = Some x ->
                  Sim.fs w_second !! q = Some x)
  /\ (forall q, ¬ q `prefix_of` r -> Sim.fs w !! q = None ->
                Sim.fs w_second !! q = None).
Proof.
  apply (init_touches_only_its_directory "second" false "figures" ∅ (world Sim.st3)
           h_second w_second).
  - apply (bool_decide_unpack _). vm_compute. reflexivity.
  - vm_compute. reflexivity.
Defined.

(** The figures of the first report are still there after the second report
    has been made. *)
Example second_report_keeps_first :
  is_Some (Sim.fs w_second !! ["home"; "u"; "figures"; "report"; "figure_001.png"])
  /\ Sim.fs w_second !! ["home"; "u"; "figures"; "second"] = Some Sim.Dir.
Proof. vm_compute. eauto. Qed.

(** X9. Where the directory does not exist yet, the root exists, and every
    ancestor of the directory that exists is a directory that is not
    read-only, construction returns an object with counter 1 and leaves the
    directory as an empty directory. *)
Theorem init_fresh_directory_succeeds rn show pd kw (w : Sim.sim_world) :
  let d := posixpath.join (posixpath.abspath_from (Sim.cwd w) pd) rn in
  Sim.wf w ->
  Sim.fs w !! ([] : Sim.path) = Some Sim.Dir ->
  Sim.fs w !! Sim.resolve w d = None ->
  creatable w (Sim.resolve w d) = true ->
  exists h w',
    __init__ rn show pd kw w = (Ok h, w')
    /\ current_number h = 1%Z
    /\ dir_name h = d
    /\ Sim.fs w' !! Sim.resolve w d = Some Sim.Dir
    /\ forall q, Sim.strictly_below (Sim.resolve w d) q -> Sim.fs w' !! q = None.
Proof.
  intros d Hwf Hroot Hnone Hcreate.
  assert (Hmk : exists w', Sim.makedirs d w = (Ok tt, w')).
  { unfold Sim.makedirs.
    apply DirFacts.makedirs_from_succeeds; cbn [app]; try done.
    - intros E. rewrite E in Hnone. congruence.
    - intros k Hk Hne. by apply (DirFacts.creatable_spec w (Sim.resolve w d)). }
  destruct Hmk as [w' Hmk].
  assert (Hinit : __init__ rn show pd kw w
                  = (Ok {| report_name := rn; show_title := show; current_number := 1;
                           suptitle_kwargs := dict_update default_suptitle_kwargs kw;
                           dir_name := d |}, w')).
  { rewrite init_run, SimFacts.sim_abspath. cbn zeta. fold d.
    change (@shutil_rmtree Sim.env) with Sim.rmtree.
    change (@os_makedirs Sim.env) with Sim.makedirs. cbv beta.
    assert (Hrm : Sim.rmtree d w = (Raise FileNotFoundError, w)).
    { unfold Sim.rmtree. by rewrite Hnone. }
    rewrite Hrm. cbn [is_OSError]. rewrite Hmk. reflexivity. }
  eexists _, w'. split; [exact Hinit|]. split; [reflexivity|]. split; [reflexivity|].
  destruct (SimFacts.init_leaves_empty_directory rn show pd kw w _ w' Hwf Hinit)
    as (_ & Hdir & Hbelow).
  cbn [dir_name] in Hdir, Hbelow. done.
Qed.

Lemma init_fresh_directory_succeeds_witness :
  let d := posixpath.join (posixpath.abspath_from (Sim.cwd Sim.w0) "figures") "report" in
  exists h w',
    __init__ "report" true "figures" ∅ Sim.w0 = (Ok h, w')
    /\ current_number h = 1%Z
    /\ dir_name h = d
    /\ Sim.fs w' !! Sim.resolve Sim.w0 d = Some Sim.Dir
    /\ forall q, Sim.strictly_below (Sim.resolve Sim.w0 d) q -> Sim.fs w' !! q = None.
Proof.
  apply (init_fresh_directory_succeeds "report" true "figures" ∅ Sim.w0).
  - apply (bool_decide_unpack _). vm_compute. reflexivity.
  - vm_compute. reflexivity.
  - vm_compute. reflexivity.
  - vm_compute. reflexivity.
Defined.

(** ** The files of a report *)

Module SaveFacts.
Import Sim SimFacts.

Lemma no_sep_app s t : no_sep (s ++ t) = no_sep s && no_sep t.
Proof.
  induction s as [|c s IH]; [reflexivity|].
  change (String c s ++ t) with (String c (s ++ t)). cbn [no_sep].
  rewrite IH. by rewrite andb_assoc.
Qed.

Lemma digit_char_not_sep d :
  (d < 10)%N -> Ascii.eqb (Fmt.digit_char d) posixpath.sep = false.
Proof.
  intros Hd.
  assert (d = 0 \/ d = 1 \/ d = 2 \/ d = 3 \/ d = 4 \/ d = 5 \/ d = 6 \/ d = 7
          \/ d = 8 \/ d = 9)%N as Hcases by lia.
  repeat (destruct Hcases as [->|Hcases]; [reflexivity|]). subst d. reflexivity.
Qed.

Lemma no_sep_digits_go fuel : forall n acc,
  no_sep acc = true -> no_sep (Fmt.digits_go fuel n acc) = true.
Proof.
  induction fuel as [|fuel IH]; intros n acc Hacc; [exact Hacc|].
  cbn [Fmt.digits_go].
  assert (Hnew : no_sep (String (Fmt.digit_char (n mod 10)) acc) = true).
  { cbn [no_sep]. rewrite digit_char_not_sep by (apply N.mod_lt; lia). exact Hacc. }
  destruct (n <? 10)%N; [exact Hnew|]. by apply IH.
Qed.

Lemma no_sep_zero_pad w s : no_sep s = true -> no_sep (Fmt.zero_pad w s) = true.
Proof.
  intros Hs. unfold Fmt.zero_pad. rewrite no_sep_app, Hs, andb_true_r.
  induction (w - String.length s) as [|k IH]; [reflexivity|exact IH].
Qed.

Lemma no_sep_percent_0d w n : no_sep (Fmt.percent_0d w n) = true.
Proof.
  unfold Fmt.percent_0d, Fmt.str_N.
  destruct n; cbn [no_sep]; rewrite ?andb_true_l;
    apply no_sep_zero_pad, no_sep_digits_go; reflexivity.
Qed.

Lemma plain_figure_basename n : plain_component (figure_basename n) = true.
Proof.
  unfold plain_component, figure_basename.
  rewrite !no_sep_app, no_sep_percent_0d. reflexivity.
Qed.

Lemma split_plain b : no_sep b = true -> Str.split posixpath.sep b = [b].
Proof.
  induction b as [|c b IH]; [reflexivity|]. cbn [no_sep Str.split].
  intros [Hc Hb]%andb_true_iff. apply negb_true_iff in Hc. rewrite Hc, (IH Hb).
  reflexivity.
Qed.

Lemma split_app_sep_plain y b :
  no_sep b = true ->
  Str.split posixpath.sep (y ++ String posixpath.sep b)
  = (Str.split posixpath.sep y ++ [b])%list.
Proof.
  intros Hb. induction y as [|c y IH].
  - change ("" ++ String posixpath.sep b) with (String posixpath.sep b).
    cbn [Str.split]. rewrite Ascii.eqb_refl, (split_plain b Hb). reflexivity.
  - change (String c y ++ String posixpath.sep b)
      with (String c (y ++ String posixpath.sep b)).
    cbn [Str.split]. rewrite IH.
    destruct (Ascii.eqb c posixpath.sep); [reflexivity|].
    pose proof (split_nonempty posixpath.sep y).
    destruct (Str.split posixpath.sep y); [done|reflexivity].
Qed.

Lemma normpath_loop_app n c1 : forall c2 acc,
  posixpath.normpath_loop n (c1 ++ c2)%list acc
  = posixpath.normpath_loop n c2 (rev (posixpath.normpath_loop n c1 acc)).
Proof.
  induction c1 as [|c c1 IH]; intros c2 acc.
  - cbn. by rewrite rev_involutive.
  - cbn [app posixpath.normpath_loop].
    destruct (_ || _)%bool; [apply IH|].
    destruct (_ || _)%bool; [apply IH|].
    destruct acc; apply IH.
Qed.

Lemma normpath_loop_plain n comps b :
  plain_component b = true ->
  posixpath.normpath_loop n (comps ++ [b])%list []
  = (posixpath.normpath_loop n comps [] ++ [b])%list.
Proof.
  unfold plain_component. intros Hb.
  apply andb_true_iff in Hb as [Hb Hdd]. apply andb_true_iff in Hb as [Hb Hd].
  apply andb_true_iff in Hb as [_ He].
  apply negb_true_iff in Hdd, Hd, He.
  rewrite normpath_loop_app. cbn [posixpath.normpath_loop].
  rewrite He, Hd, Hdd. cbn. by rewrite rev_involutive.
Qed.

Lemma endswith_char_split c d :
  Str.endswith_char c d = true -> exists y, d = y ++ String c "".
Proof.
  induction d as [|x d IH]; [discriminate|]. cbn [Str.endswith_char].
  destruct d as [|x' d'].
  - intros ->%Ascii.eqb_eq. by exists "".
  - intros [y Hy]%IH. exists (String x y). rewrite Hy. reflexivity.
Qed.

Lemma startswith_plain b :
  plain_component b = true -> Str.startswith_char posixpath.sep b = false.
Proof.
  unfold plain_component. destruct b as [|c b]; [discriminate|]. cbn.
  destruct (Ascii.eqb c posixpath.sep); [discriminate|reflexivity].
Qed.

(** A plain name joined to an absolute directory names an entry directly
    in that directory. *)
Lemma resolve_join_plain w d b :
  posixpath.isabs d = true -> plain_component b = true ->
  resolve w (posixpath.join d b) = (resolve w d ++ [b])%list.
Proof.
  intros Hd Hb.
  assert (Hns : no_sep b = true).
  { unfold plain_component in Hb. by repeat (apply andb_true_iff in Hb as [Hb _]). }
  unfold resolve. rewrite (PathFacts.isabs_join d b Hd), Hd.
  unfold posixpath.join. rewrite (startswith_plain b Hb).
  destruct (String.eqb_spec d "") as [->|_]; [discriminate|]. cbn [orb].
  destruct (Str.endswith_char posixpath.sep d) eqn:Hend.
  - destruct (endswith_char_split _ _ Hend) as [y ->].
    rewrite <- string_app_assoc.
    change (String posixpath.sep "" ++ b) with (String posixpath.sep b).
    rewrite split_app_sep_plain, split_app_sep, normpath_loop_app_empty by done.
    by apply normpath_loop_plain.
  - change ("/" ++ b) with (String posixpath.sep b).
    rewrite split_app_sep_plain by done. by apply normpath_loop_plain.
Qed.

Lemma suptitle_files fig t kw w r w' :
  suptitle fig t kw w = (r, w') ->
  fs w' = fs w /\ cwd w' = cwd w /\ notebook w' = notebook w.
Proof. unfold suptitle. destruct (figures w !! fig); by intros [= _ <-]. Qed.

Lemma savefig_Ok fig name bbox c w w' :
  savefig fig name bbox c w = (Ok tt, w') ->
  exists img, w' = set_fs (<[resolve w name := File img]> (fs w)) w.
Proof.
  unfold savefig. intros H. repeat case_match; simplify_eq; eauto.
Qed.

Lemma bump_counter h : current_number (bump h) = (current_number h + 1)%Z.
Proof. reflexivity. Qed.

Lemma bump_dir_name h : dir_name (bump h) = dir_name h.
Proof. reflexivity. Qed.

Lemma sim_stamp_title fig title (st : State (@World env)) r st1 :
  stamp_title fig title st = (r, st1) ->
  self st1 = self st /\ fs (world st1) = fs (world st)
  /\ cwd (world st1) = cwd (world st) /\ notebook (world st1) = notebook (world st).
Proof.
  rewrite stamp_title_run.
  destruct (show_title _), title as [t|]; try (by intros [= _ <-]).
  destruct (fig_suptitle fig t _ _) as [r' w1] eqn:E.
  intros [= _ <-]. cbn [self world]. split; [reflexivity|].
  exact (suptitle_files _ _ _ _ _ _ E).
Qed.

(** What a save that returns has done in the concrete world: one file is
    written, under the name returned, and the figure is closed. *)
Lemma sim_figsave_Ok fig title (st : State (@World env)) name st1 :
  figsave fig title st = (Ok name, st1) ->
  exists img,
    fs (world st1) = <[resolve (world st) name := File img]> (fs (world st))
    /\ cwd (world st1) = cwd (world st)
    /\ (fig ∉ managed (world st1))
    /\ notebook (world st1) = notebook (world st).
Proof.
  intros H. pose proof (figsave_Ok _ _ _ _ _ H) as [-> _].
  rewrite figsave_run in H.
  destruct (stamp_title fig title st) as [[[]|e] st0] eqn:Hstamp; [|discriminate].
  apply sim_stamp_title in Hstamp as (Hself & Hfs & Hcwd & Hnb). rewrite Hself in H.
  destruct (fig_get_facecolor fig (world st0)) as [[c|e] w2] eqn:Hface; [|discriminate].
  assert (w2 = world st0) as ->.
  { clear H. change (@fig_get_facecolor env) with get_facecolor in Hface.
    unfold get_facecolor in Hface. case_match; by simplify_eq. }
  destruct (fig_savefig fig (next_fname (self st)) "tight" c (world st0))
    as [[[]|e] w3] eqn:Hsave; [|discriminate].
  apply savefig_Ok in Hsave as [img ->].
  destruct (plt_close fig _) as [[[]|e] w4] eqn:Hclose; [|discriminate].
  injection H as <-. injection Hclose as <-.
  cbn [world fs cwd managed notebook set_fs set_managed].
  exists img. split; [|split; [exact Hcwd|split; [|exact Hnb]]].
  - exact (f_equal2 (fun k m => <[k := File img]> m)
             (resolve_cwd (world st) (world st0) (next_fname (self st)) Hcwd) Hfs).
  - intros [Hne _]%list_elem_of_filter. by apply Hne.
Qed.

(** Later saves of the same object write elsewhere: an entry that is not
    one of the figure files still to come stays as it is. *)
Lemma saves_from_keep (st1 : State (@World env)) names st2 :
  saves_from st1 names st2 ->
  posixpath.isabs (dir_name (self st1)) = true ->
  forall q : path,
    (forall n, (current_number (self st1) <= n)%Z ->
       q <> (resolve (world st1) (dir_name (self st1)) ++ [figure_basename n])%list) ->
    fs (world st2) !! q = fs (world st1) !! q.
Proof.
  induction 1 as [st|st fig title name st1 names st2 Hsave _ IH]; intros Habs q Hq;
    [reflexivity|].
  destruct (sim_figsave_Ok _ _ _ _ _ Hsave) as (img & Hfs & Hcwd & _).
  apply figsave_Ok in Hsave as [-> Hself].
  assert (Hdir : dir_name (self st1) = dir_name (self st)) by (by rewrite Hself).
  rewrite IH.
  - rewrite Hfs. apply lookup_insert_ne. unfold next_fname.
    rewrite resolve_join_plain by (done || apply plain_figure_basename).
    intros E. by apply (Hq (current_number (self st))).
  - by rewrite Hdir.
  - intros n Hn. rewrite Hdir, (resolve_cwd _ _ _ Hcwd). apply Hq.
    rewrite Hself, bump_counter in Hn. lia.
Qed.

End SaveFacts.

(** X10. A figure file is an entry directly in the directory of the
    object, named figure_NNN.png, and the saves that follow on the same
    object never change it: after any number of further saves the file holds
    the picture written when it was saved. *)
Theorem earlier_figures_stay fig title (st : State (@World Sim.env)) name st1 names st2 :
  (0 <= current_number (self st))%Z ->
  posixpath.isabs (dir_name (self st)) = true ->
  figsave fig title st = (Ok name, st1) ->
  saves_from st1 names st2 ->
  let q := Sim.resolve (world st) name in
  q = (Sim.resolve (world st) (dir_name (self st))
       ++ [figure_basename (current_number (self st))])%list
  /\ exists img,
       Sim.fs (world st1) !! q = Some (Sim.File img)
       /\ Sim.fs (world st2) !! q = Some (Sim.File img).
Proof.
  intros Hcn Habs Hsave Hrun q.
  destruct (SaveFacts.sim_figsave_Ok _ _ _ _ _ Hsave) as (img & Hfs & Hcwd & _).
  pose proof (figsave_Ok _ _ _ _ _ Hsave) as [Hname Hself].
  assert (Hq : q = (Sim.resolve (world st) (dir_name (self st))
                    ++ [figure_basename (current_number (self st))])%list).
  { unfold q. rewrite Hname. unfold next_fname.
    apply SaveFacts.resolve_join_plain; [done|apply SaveFacts.plain_figure_basename]. }
  split; [exact Hq|]. exists img.
  assert (Hfile : Sim.fs (world st1) !! q = Some (Sim.File img)).
  { rewrite Hfs. apply lookup_insert_eq. }
  split; [exact Hfile|].
  rewrite (SaveFacts.saves_from_keep st1 names st2 Hrun); [exact Hfile| |].
  - by rewrite Hself.
  - intros n Hn. rewrite Hself, SaveFacts.bump_counter in Hn.
    rewrite Hself, SaveFacts.bump_dir_name, (SimFacts.resolve_cwd _ _ _ Hcwd), Hq.
    intros E. apply app_inv_head in E.
    assert (E' : figure_basename (current_number (self st)) = figure_basename n)
      by exact (f_equal (fun l => match l with [x] => x | _ => "" end) E).
    apply figure_basename_inj in E'; lia.
Qed.

Lemma earlier_figures_stay_witness :
  let q := Sim.resolve (world Sim.st1) "/home/u/figures/report/figure_001.png" in
  q = (Sim.resolve (world Sim.st1) (dir_name (self Sim.st1))
       ++ [figure_basename (current_number (self Sim.st1))])%list
  /\ exists img,
       Sim.fs (world Sim.st2) !! q = Some (Sim.File img)
       /\ Sim.fs (world Sim.st3) !! q = Some (Sim.File img).
Proof.
  apply (earlier_figures_stay 1%nat (Some "Title") Sim.st1
           "/home/u/figures/report/figure_001.png" Sim.st2
           ["/home/u/figures/report/figure_002.png"] Sim.st3).
  - vm_compute. discriminate.
  - reflexivity.
  - vm_compute. reflexivity.
  - apply (@saves_from_cons Sim.env Sim.st2 1%nat None
             "/home/u/figures/report/figure_002.png" Sim.st3 [] Sim.st3).
    + vm_compute. reflexivity.
    + apply saves_from_nil.
Defined.

(** X11. A save that returns has closed the figure: pyplot does not manage
    it any more, so it is not the current figure of a later call without a
    figure. *)
Theorem figsave_closes_figure fig title (st : State (@World Sim.env)) name st1 :
  figsave fig title st = (Ok name, st1) ->
  (fig ∉ Sim.managed (world st1))
  /\ last (Sim.managed (world st1)) <> Some fig.
Proof.
  intros Hsave.
  destruct (SaveFacts.sim_figsave_Ok _ _ _ _ _ Hsave) as (img & _ & _ & Hclosed & _).
  split; [exact Hclosed|].
  intros Hlast. apply Hclosed. apply last_Some in Hlast as [l ->].
  apply elem_of_app. right. by left.
Qed.

Lemma figsave_closes_figure_witness :
  (1%nat ∉ Sim.managed (world Sim.st2))
  /\ last (Sim.managed (world Sim.st2)) <> Some 1%nat.
Proof.
  apply (figsave_closes_figure 1%nat (Some "Title") Sim.st1
           "/home/u/figures/report/figure_001.png" Sim.st2).
  vm_compute. reflexivity.
Defined.

(** X12. In the concrete world a display whose save returns returns too:
    the file just written is loaded and shown, so the notebook has exactly
    one more image, the picture in the file under the name of the save, and
    the files and the object are those the bare save leaves. *)
Theorem figdisp_shows_saved_file fig title (st : State (@World Sim.env)) name st1 :
  figsave fig title st = (Ok name, st1) ->
  exists img st2,
    figdisp fig title st = (Ok tt, st2)
    /\ Sim.fs (world st2) !! Sim.resolve (world st) name = Some (Sim.File img)
    /\ Sim.notebook (world st2) = (Sim.notebook (world st) ++ [img])%list
    /\ Sim.fs (world st2) = Sim.fs (world st1)
    /\ self st2 = self st1.
Proof.
  intros Hsave.
  destruct (SaveFacts.sim_figsave_Ok _ _ _ _ _ Hsave) as (img & Hfs & Hcwd & _ & Hnb).
  assert (Hfile : Sim.fs (world st1) !! Sim.resolve (world st1) name
                  = Some (Sim.File img)).
  { rewrite (SimFacts.resolve_cwd _ _ _ Hcwd), Hfs. apply lookup_insert_eq. }
  exists img, {| self := self st1; world := Sim.set_notebook
                                              (Sim.notebook (world st1) ++ [img])%list
                                              (world st1) |}.
  split; [|split; [|split; [|split]]].
  - rewrite figdisp_run, Hsave.
    change (IPython_Image name (world st1)) with (Sim.Image name (world st1)).
    unfold Sim.Image. rewrite Hfile. reflexivity.
  - cbn. rewrite <- (SimFacts.resolve_cwd _ _ _ Hcwd). exact Hfile.
  - exact (f_equal (fun l => (l ++ [img])%list) Hnb).
  - reflexivity.
  - reflexivity.
Qed.

Lemma figdisp_shows_saved_file_witness :
  exists img st2,
    figdisp (1%nat : Figure) (Some "Title") Sim.st1 = (Ok tt, st2)
    /\ Sim.fs (world st2)
         !! Sim.resolve (world Sim.st1) "/home/u/figures/report/figure_001.png"
       = Some (Sim.File img)
    /\ Sim.notebook (world st2) = (Sim.notebook (world Sim.st1) ++ [img])%list
    /\ Sim.fs (world st2) = Sim.fs (world Sim.st2)
    /\ self st2 = self Sim.st2.
Proof.
  apply (figdisp_shows_saved_file 1%nat (Some "Title") Sim.st1
           "/home/u/figures/report/figure_001.png" Sim.st2).
  vm_compute. reflexivity.
Defined.
